(** * generate_sample_pdf.py: the sample financial report generator

    A shallow embedding of [generate_sample_pdf.py] and the properties of
    its content assembly.  The script builds a list of ReportLab flowables
    (cover page, narrative, table, chart) from a constant quarterly data
    set and hands it to the layout engine, which writes the document file.

    Python values are embedded as follows: [int] is [Z]; [float] is an
    IEEE 754 binary64 number ([spec_float] at precision 53); [str] is
    [string]; a list object lives in a store and is named by its address;
    a routine is a computation in a state-and-exception monad over that
    store, the file system and the standard output.  ReportLab objects
    are records of the attributes the script sets. *)

From Stdlib Require Import ZArith String Ascii List Lia.
From Stdlib Require Import Floats.SpecFloat.
From stdpp Require Import base option list gmap strings pretty numbers.

Set Warnings "-register-all".

Local Open Scope Z_scope.

(** * Python numbers *)

(** Python's [float]: binary64, every operation rounded to nearest even. *)
Module PyFloat.
Definition prec : Z := 53.
Definition emax : Z := 1024.
Definition float64 : Type := spec_float.

(** [float(n)] for an [int] [n]. *)
Definition of_int (n : Z) : float64 := binary_normalize prec emax n 0 false.

(** A decimal literal with [places] digits after the point, such as
    [1.56] = [literal 156 2]: the binary64 number nearest to
    [digits / 10^places].  Both operands of the division are exact, and
    the division is correctly rounded, as the parsing of a literal is. *)
Definition literal (digits : Z) (places : nat) : float64 :=
  SFdiv prec emax (of_int digits) (of_int (10 ^ Z.of_nat places)).

Definition add : float64 → float64 → float64 := SFadd prec emax.
Definition sub : float64 → float64 → float64 := SFsub prec emax.
Definition mul : float64 → float64 → float64 := SFmul prec emax.
Definition abs : float64 → float64 := SFabs.
Definition leb : float64 → float64 → bool := SFleb.

Definition is_finite (x : float64) : bool :=
  match x with
  | S754_zero _ | S754_finite _ _ _ => true
  | S754_infinity _ | S754_nan => false
  end.
End PyFloat.
Export PyFloat.

(** * Characters and decimal digits *)

Definition chars (s : string) : list ascii := list_ascii_of_string s.
Definition text (cs : list ascii) : string := string_of_list_ascii cs.

Definition is_digit (c : ascii) : bool :=
  (48 <=? nat_of_ascii c)%nat && (nat_of_ascii c <=? 57)%nat.
Definition digit_value (c : ascii) : Z := Z.of_nat (nat_of_ascii c) - 48.
Definition is_comma (c : ascii) : bool := Ascii.eqb c ",".

(** [str(n)] for an [int]: stdpp's decimal printer. *)
Definition str_int (n : Z) : string := pretty n.

(** The decimal digits of a natural number, most significant first. *)
Definition digits (n : Z) : list ascii := chars (pretty (Z.to_N n)).

(** * Format specifications *)

(** ** [format(n, ",")] for an [int] *)

(** The digits are taken from the right, least significant first; [k]
    counts the digits already put in the current group, and a separator
    goes in front of every fourth one. *)
Fixpoint group_thousands (rdigits : list ascii) (k : nat) : list ascii :=
  match rdigits with
  | [] => []
  | d :: rest =>
      if (k =? 3)%nat then "," :: d :: group_thousands rest 1
      else d :: group_thousands rest (S k)
  end%char.

Definition sign_chars (negative : bool) : list ascii :=
  if negative then ["-"%char] else [].

Definition format_thousands (n : Z) : string :=
  text (sign_chars (n <? 0)
        ++ reverse (group_thousands (reverse (digits (Z.abs n))) 0)).

(** ** [format(x, ".2f")] for a [float] *)

(** [num / den] rounded to the nearest integer, ties to even
    ([0 <= num], [0 < den]). *)
Definition round_half_even (num den : Z) : Z :=
  let q := num / den in
  match (2 * (num mod den)) ?= den with
  | Lt => q
  | Gt => q + 1
  | Eq => if Z.even q then q else q + 1
  end.

(** The magnitude [m * 2^e] in hundredths, correctly rounded. *)
Definition hundredths (m : positive) (e : Z) : Z :=
  if 0 <=? e then Z.pos m * 2 ^ e * 100
  else round_half_even (Z.pos m * 100) (2 ^ (- e)).

Definition two_decimals (q : Z) : list ascii :=
  digits (q / 100) ++ ["."%char; pretty_N_char (Z.to_N (q mod 100 / 10));
                       pretty_N_char (Z.to_N (q mod 10))].

Definition format_2f (x : float64) : string :=
  match x with
  | S754_nan => "nan"
  | S754_infinity s => text (sign_chars s ++ chars "inf")
  | S754_zero s => text (sign_chars s ++ two_decimals 0)
  | S754_finite s m e => text (sign_chars s ++ two_decimals (hundredths m e))
  end.

(** * Reading formatted cells back

    What the specification calls a thousands-separated integer and a
    two-decimal value, as checks on the characters of a cell and as the
    number the cell denotes. *)

Fixpoint parse_digits (acc : Z) (cs : list ascii) : option Z :=
  match cs with
  | [] => Some acc
  | c :: rest =>
      if is_digit c then parse_digits (10 * acc + digit_value c) rest else None
  end.

Definition parse_number (cs : list ascii) : option Z :=
  match cs with
  | [] => None
  | _ => parse_digits 0 cs
  end.

Definition split_sign (cs : list ascii) : bool * list ascii :=
  match cs with
  | "-"%char :: rest => (true, rest)
  | _ => (false, cs)
  end.

Definition apply_sign (negative : bool) (n : Z) : Z := if negative then - n else n.

(** Separators counted from the right: every group but the leading one
    has exactly three digits, the leading one has one to three. *)
Fixpoint separated_from_right (rcs : list ascii) (k : nat) : bool :=
  match rcs with
  | [] => (1 <=? k)%nat
  | c :: rest =>
      if is_comma c then (k =? 3)%nat && separated_from_right rest 0
      else is_digit c && (k <? 3)%nat && separated_from_right rest (S k)
  end.

(** No leading zeros: the digits start with a zero only in ["0"], which
    carries no sign. *)
Definition canonical_digits (negative : bool) (body : list ascii) : bool :=
  match body with
  | "0"%char :: rest => negb negative && Nat.eqb (length rest) 0
  | _ => true
  end.

Definition is_thousands_separated (s : string) : bool :=
  let '(neg, body) := split_sign (chars s) in
  separated_from_right (reverse body) 0 && canonical_digits neg body.

Definition thousands_value (s : string) : option Z :=
  let '(neg, body) := split_sign (chars s) in
  apply_sign neg <$> parse_number (filter (λ c, is_comma c = false) body).

(** One or more digits, a point, exactly two digits. *)
Definition is_two_decimal (s : string) : bool :=
  let body := snd (split_sign (chars s)) in
  match reverse body with
  | d2 :: d1 :: "."%char :: rint =>
      is_digit d2 && is_digit d1 && forallb is_digit rint
      && negb (Nat.eqb (length rint) 0)
  | _ => false
  end.

(** The value of a two-decimal cell, in hundredths. *)
Definition hundredths_value (s : string) : option Z :=
  let '(neg, body) := split_sign (chars s) in
  apply_sign neg <$> parse_number (filter (λ c, negb (Ascii.eqb c ".")) body).

(** [h] hundredths is the float [x] at two decimals: [x * 100] itself when
    that is an integer, and otherwise the integer nearest to [x * 100],
    the even one of the two when [x * 100] lies half way, on the side of
    [x]'s sign. *)
Definition is_nearest_hundredth (x : float64) (h : Z) : bool :=
  match x with
  | S754_zero _ => h =? 0
  | S754_finite s m e =>
      let a := Z.abs h in
      ((if s then h <=? 0 else 0 <=? h)
       && (if 0 <=? e then a =? Z.pos m * 2 ^ e * 100
           else
             let twice := 2 * Z.abs (a * 2 ^ (- e) - Z.pos m * 100) in
             (twice <? 2 ^ (- e)) || ((twice =? 2 ^ (- e)) && Z.even a)))%bool
  | _ => false
  end.

(** A cell shows [x] at two decimals. *)
Definition shows_two_decimals (x : float64) (cell : string) : bool :=
  is_two_decimal cell
  && match hundredths_value cell with
     | Some h => is_nearest_hundredth x h
     | None => false
     end.

(** A cell shows the integer [n] with thousands separators. *)
Definition shows_thousands (n : Z) (cell : string) : bool :=
  is_thousands_separated cell
  && match thousands_value cell with
     | Some v => v =? n
     | None => false
     end.

(** * ReportLab objects

    The objects of the layout library, as records of the attributes the
    script gives them.  What the engine does with them (pagination, text
    reflow, drawing) is outside the script. *)

Inductive Color :=
| HexColor (code : string)
| white.

Inductive Alignment := TA_CENTER | TA_JUSTIFY.

Inductive StyleAttr :=
| fontSize (n : Z)
| leading (n : Z)
| alignment (a : Alignment)
| textColor (c : Color)
| spaceAfter (n : Z)
| spaceBefore (n : Z).

Inductive ParagraphStyle :=
| SampleStyle (name : string)
| MkParagraphStyle (name : string) (parent : ParagraphStyle) (attrs : list StyleAttr).

Definition style_name (s : ParagraphStyle) : string :=
  match s with
  | SampleStyle name => name
  | MkParagraphStyle name _ _ => name
  end.

Abbreviation StyleSheet := (gmap string ParagraphStyle).

(** A command of a [TableStyle]: name, first cell, last cell (column, row;
    negative indices count from the end), arguments. *)
Inductive CommandArg :=
| ArgColor (c : Color)
| ArgName (s : string)
| ArgInt (n : Z)
| ArgFloat (x : float64).

Record TableCommand := MkCommand {
  cmd_name : string;
  cmd_start : Z * Z;
  cmd_stop : Z * Z;
  cmd_args : list CommandArg;
}.

Record VerticalBarChart := MkChart {
  chart_x : Z;
  chart_y : Z;
  chart_width : Z;
  chart_height : Z;
  chart_data : list (list Z);
  categoryNames : list string;
  categoryAxis_labels_fontName : string;
  categoryAxis_labels_fontSize : Z;
  valueMin : Z;
  valueMax : Z;
  valueStep : Z;
  valueAxis_labels_fontName : string;
  valueAxis_labels_fontSize : Z;
  bars0_fillColor : Color;
  bars0_strokeColor : Color;
  bars0_strokeWidth : float64;
  barLabels_nudge : Z;
  barLabelFormat : string;
  barLabels_fontName : string;
  barLabels_fontSize : Z;
}.

Inductive Shape :=
| ChartShape (chart : VerticalBarChart)
| StringShape (x y : Z) (label : string)
    (textAnchor fontName : string) (font_size : Z).

Inductive Flowable :=
| Spacer (width : Z) (height : float64)
| Paragraph (content : string) (style : ParagraphStyle)
| PageBreak
| Table (data : list (list string)) (colWidths : list float64)
    (style : list TableCommand)
| Drawing (width height : Z) (contents : list Shape).

(** * Python values and the store *)

Abbreviation loc := nat.

Inductive value :=
| VInt (n : Z)
| VFloat (x : float64)
| VStr (s : string)
| VTuple (items : list value)
| VRef (l : loc)
| VFlowable (f : Flowable).

(** A path, last component first: [name :: parent] is [parent / name]. *)
Abbreviation path := (list string).

Record SimpleDocTemplate := MkDoc {
  filename : path;
  pagesize : float64 * float64;
  leftMargin : float64;
  rightMargin : float64;
  topMargin : float64;
  bottomMargin : float64;
}.

(** A file holds either what the engine rendered from a story, or bytes
    that were there before the run. *)
Inductive file_content :=
| Rendered (doc : SimpleDocTemplate) (story : list Flowable)
| Bytes (b : string).

Inductive node :=
| Dir
| File (content : file_content).

Inductive output_line :=
| CreatedLine (p : path)
| FileSizeLine (content : file_content).

Inductive exn :=
| KeyError (key : string)
| IndexError
| TypeError
| ValueError
| OverflowError
| FileExistsError (p : path)
| FileNotFoundError (p : path)
| NotADirectoryError (p : path)
| IsADirectoryError (p : path)
| Unmodelled (what : string).

Record State := MkState {
  heap : list (list value);
  fs : gmap path node;
  stdout : list output_line;
}.

Definition set_heap (h : list (list value)) (σ : State) : State :=
  MkState h (fs σ) (stdout σ).
Definition set_fs (f : gmap path node) (σ : State) : State :=
  MkState (heap σ) f (stdout σ).
Definition set_stdout (o : list output_line) (σ : State) : State :=
  MkState (heap σ) (fs σ) o.

(** * The monad of routines *)

Inductive outcome (A : Type) :=
| Return (a : A) (σ : State)
| Raise (e : exn) (σ : State).
Arguments Return {A} a σ.
Arguments Raise {A} e σ.

Definition M (A : Type) : Type := State → outcome A.

Global Instance M_ret : MRet M := λ A a σ, Return a σ.
Global Instance M_bind : MBind M := λ A B f m σ,
  match m σ with
  | Return a σ' => f a σ'
  | Raise e σ' => Raise e σ'
  end.

Definition raise {A} (e : exn) : M A := λ σ, Raise e σ.

(** [try: m except e: handler e]; the handler starts from the state the
    exception was raised in. *)
Definition try_except {A} (m : M A) (handler : exn → M A) : M A := λ σ,
  match m σ with
  | Return a σ' => Return a σ'
  | Raise e σ' => handler e σ'
  end.

Definition final_state {A} (o : outcome A) : State :=
  match o with
  | Return _ σ => σ
  | Raise _ σ => σ
  end.

(** ** List objects *)

(** A list display or comprehension result: a new object. *)
Definition new_list (items : list value) : M loc := λ σ,
  Return (length (heap σ)) (set_heap (heap σ ++ [items]) σ).

Definition read_list (l : loc) : M (list value) := λ σ,
  match heap σ !! l with
  | Some items => Return items σ
  | None => Raise (Unmodelled "dangling reference") σ
  end.

Definition write_list (l : loc) (items : list value) : M unit := λ σ,
  Return () (set_heap (<[l := items]> (heap σ)) σ).

(** [l.append(v)] *)
Definition append (l : loc) (v : value) : M unit :=
  items ← read_list l; write_list l (items ++ [v]).

(** [l.extend(other)] *)
Definition extend (l other : loc) : M unit :=
  more ← read_list other; items ← read_list l; write_list l (items ++ more).

(** [a + b] on lists: a new object. *)
Definition list_add (a b : loc) : M loc :=
  xs ← read_list a; ys ← read_list b; new_list (xs ++ ys).

Fixpoint for_each {A} (body : value → M A) (items : list value) : M (list A) :=
  match items with
  | [] => mret []
  | v :: rest => a ← body v; others ← for_each body rest; mret (a :: others)
  end.

(** ** Operations on values *)

(** [q, rev, ni, eps = r] *)
Definition unpack4 (r : value) : M (value * value * value * value) :=
  match r with
  | VTuple [a; b; c; d] => mret (a, b, c, d)
  | VTuple _ => raise ValueError
  | _ => raise (Unmodelled "unpacking a value that is not a tuple")
  end.

(** [r[i]] *)
Definition getitem (r : value) (i : nat) : M value :=
  match r with
  | VTuple items =>
      match items !! i with
      | Some v => mret v
      | None => raise IndexError
      end
  | _ => raise (Unmodelled "subscript of a value that is not a tuple")
  end.

(** The conversion of an [int] to [float] where an operation needs one:
    correctly rounded, and an [OverflowError] when the result is beyond
    the largest float. *)
Definition float_of_int (n : Z) : M float64 :=
  if is_finite (of_int n) then mret (of_int n) else raise OverflowError.

(** [a + b] where [a] is a number, as in [sum], whose accumulator starts
    at [0]: adding anything but a number to a number is a [TypeError]. *)
Definition py_add (a b : value) : M value :=
  match a, b with
  | VInt x, VInt y => mret (VInt (x + y))
  | VInt x, VFloat y => fx ← float_of_int x; mret (VFloat (add fx y))
  | VFloat x, VInt y => fy ← float_of_int y; mret (VFloat (add x fy))
  | VFloat x, VFloat y => mret (VFloat (add x y))
  | VInt _, _ | VFloat _, _ => raise TypeError
  | _, _ => raise (Unmodelled "addition to a value that is not a number")
  end.

(** [sum(items)]: from [0], left to right, every addition rounded, as
    CPython does through version 3.11.  From 3.12 on, [sum] over floats
    carries a compensation term ([sum_compensated] below); integer sums
    are the same in both. *)
Fixpoint sum_from (acc : value) (items : list value) : M value :=
  match items with
  | [] => mret acc
  | v :: rest => acc' ← py_add acc v; sum_from acc' rest
  end.
Definition py_sum (items : list value) : M value := sum_from (VInt 0) items.

(** [sys.get_int_max_str_digits()]: the interpreter's default limit on
    the decimal digits of an [int] that is turned into text (CPython 3.11
    and later, and the later releases of 3.7 to 3.10); the script does
    not change it.  The sign does not count. *)
Definition int_max_str_digits : nat := 4300.

Definition fits_str (n : Z) : bool :=
  (length (digits (Z.abs n)) <=? int_max_str_digits)%nat.

(** [f"{v:,}"]: an [int] beyond the digit limit and a [str] are a
    [ValueError], an object without a format of its own a [TypeError]. *)
Definition format_comma (v : value) : M string :=
  match v with
  | VInt n => if fits_str n then mret (format_thousands n) else raise ValueError
  | VFloat _ => raise (Unmodelled "grouping of a float")
  | VStr _ => raise ValueError
  | _ => raise TypeError
  end.

(** [f"{v:.2f}"]: an [int] is converted to [float] first. *)
Definition format_fixed2 (v : value) : M string :=
  match v with
  | VInt n => x ← float_of_int n; mret (format_2f x)
  | VFloat x => mret (format_2f x)
  | VStr _ => raise ValueError
  | _ => raise TypeError
  end.

(** ** Handing lists to the library

    A library object keeps the contents its list arguments have at the
    call; the script does not touch those lists afterwards. *)

Definition as_str (v : value) : M string :=
  match v with
  | VStr s => mret s
  | _ => raise (Unmodelled "a cell that is not a string")
  end.

Definition as_int (v : value) : M Z :=
  match v with
  | VInt n => mret n
  | _ => raise (Unmodelled "a bar value that is not an int")
  end.

Definition as_flowable (v : value) : M Flowable :=
  match v with
  | VFlowable f => mret f
  | _ => raise (Unmodelled "a story item that is not a flowable")
  end.

Definition as_list {A} (item : value → M A) (v : value) : M (list A) :=
  match v with
  | VRef l => items ← read_list l; for_each item items
  | _ => raise (Unmodelled "not a list")
  end.

Definition read_strings (l : loc) : M (list string) := as_list as_str (VRef l).
Definition read_ints (l : loc) : M (list Z) := as_list as_int (VRef l).
Definition read_rows (l : loc) : M (list (list string)) :=
  as_list (as_list as_str) (VRef l).
Definition read_story (l : loc) : M (list Flowable) :=
  as_list as_flowable (VRef l).

(** ** The file system *)

Definition lookup_node (f : gmap path node) (p : path) : option node :=
  match p with
  | [] => Some Dir
  | _ => f !! p
  end.

(** [os.mkdir(p)] *)
Definition os_mkdir (p : path) : M unit := λ σ,
  match p with
  | [] => Raise (FileExistsError p) σ
  | _ :: parent =>
      match lookup_node (fs σ) parent with
      | None => Raise (FileNotFoundError p) σ
      | Some (File _) => Raise (NotADirectoryError p) σ
      | Some Dir =>
          match fs σ !! p with
          | Some _ => Raise (FileExistsError p) σ
          | None => Return () (set_fs (<[p := Dir]> (fs σ)) σ)
          end
      end
  end.

(** [p.is_dir()] *)
Definition is_dir (p : path) : M bool := λ σ,
  match lookup_node (fs σ) p with
  | Some Dir => Return true σ
  | _ => Return false σ
  end.

(** [Path.mkdir] with [parents=False]. *)
Definition mkdir_single (p : path) (exist_ok : bool) : M unit :=
  try_except (os_mkdir p) (λ e,
    match e with
    | FileNotFoundError _ => raise e
    | _ => d ← is_dir p; if negb exist_ok || negb d then raise e else mret ()
    end).

(** [Path.mkdir(parents=True, exist_ok=exist_ok)]: on a missing parent,
    the parent is made first (with [exist_ok=True]), then the directory. *)
Fixpoint mkdir_parents (p : path) (exist_ok : bool) : M unit :=
  try_except (os_mkdir p) (λ e,
    match e with
    | FileNotFoundError _ =>
        match p with
        | [] => raise e
        | _ :: parent => mkdir_parents parent true;; mkdir_single p exist_ok
        end
    | _ => d ← is_dir p; if negb exist_ok || negb d then raise e else mret ()
    end).

(** [open(p, "wb")], write, close. *)
Definition write_file (p : path) (c : file_content) : M unit := λ σ,
  match p with
  | [] => Raise (IsADirectoryError p) σ
  | _ :: parent =>
      match lookup_node (fs σ) parent with
      | None => Raise (FileNotFoundError p) σ
      | Some (File _) => Raise (NotADirectoryError p) σ
      | Some Dir =>
          match fs σ !! p with
          | Some Dir => Raise (IsADirectoryError p) σ
          | _ => Return () (set_fs (<[p := File c]> (fs σ)) σ)
          end
      end
  end.

(** [p.stat()], as far as the script uses it: the file's content. *)
Definition stat (p : path) : M file_content := λ σ,
  match lookup_node (fs σ) p with
  | Some (File c) => Return c σ
  | Some Dir => Raise (Unmodelled "size of a directory") σ
  | None => Raise (FileNotFoundError p) σ
  end.

Definition print (line : output_line) : M unit := λ σ,
  Return () (set_stdout (stdout σ ++ [line]) σ).

(** * The script *)

Definition run {A} (m : M A) (σ : State) : outcome A := m σ.

Definition inch : float64 := of_int 72.
Definition letter : float64 * float64 :=
  (mul (literal 85 1) inch, mul (of_int 11) inch).

(** ** Module level *)

Definition OUTPUT_DIR (script_dir : path) : path := "data"%string :: script_dir.
Definition OUTPUT_PDF (script_dir : path) : path :=
  "sample_financial_report.pdf"%string :: OUTPUT_DIR script_dir.

Definition COMPANY : string := "Acme Corp".
Definition YEAR : Z := 2024.

(** The list display bound to [QUARTERLY_DATA]:
    (Quarter, Revenue $M, Net Income $M, EPS $). *)
Definition QUARTERLY_DATA_rows : list value :=
  [ VTuple [VStr "Q1 2024"; VInt 2105; VInt 312; VFloat (literal 156 2)];
    VTuple [VStr "Q2 2024"; VInt 2498; VInt 389; VFloat (literal 195 2)];
    VTuple [VStr "Q3 2024"; VInt 2847; VInt 456; VFloat (literal 228 2)];
    VTuple [VStr "Q4 2024"; VInt 3102; VInt 521; VFloat (literal 261 2)] ].

(** The global [QUARTERLY_DATA] names the first list object the module
    creates. *)
Definition QUARTERLY_DATA : loc := 0%nat.

(** The statements of the module before the function definitions. *)
Definition module_level (script_dir : path) : M unit :=
  mkdir_parents (OUTPUT_DIR script_dir) true;;
  _ ← new_list QUARTERLY_DATA_rows;
  mret ().

(** ** [build_styles] *)

(** The names of the engine's sample style sheet the script relies on,
    with the other paragraph styles that sheet defines. *)
Definition getSampleStyleSheet : StyleSheet :=
  list_to_map ((λ n, (n, SampleStyle n)) <$>
    ["Normal"; "BodyText"; "Italic"; "Heading1"; "Title"; "Heading2";
     "Heading3"; "Heading4"; "Heading5"; "Heading6"; "Bullet";
     "Definition"; "Code"]%string).

(** [styles[name]] *)
Definition style (styles : StyleSheet) (name : string) : M ParagraphStyle :=
  match styles !! name with
  | Some s => mret s
  | None => raise (KeyError name)
  end.

(** [styles.add(s)]: a name can be added once. *)
Definition styles_add (styles : StyleSheet) (s : ParagraphStyle) : M StyleSheet :=
  match styles !! style_name s with
  | Some _ => raise (KeyError (style_name s))
  | None => mret (<[style_name s := s]> styles)
  end.

Definition build_styles : M StyleSheet :=
  let styles := getSampleStyleSheet in
  parent ← style styles "Title";
  styles ← styles_add styles (MkParagraphStyle "CoverTitle" parent
    [fontSize 28; leading 34; alignment TA_CENTER; spaceAfter 20]);
  parent ← style styles "Heading2";
  styles ← styles_add styles (MkParagraphStyle "CoverSubtitle" parent
    [fontSize 16; alignment TA_CENTER; textColor (HexColor "#555555");
     spaceAfter 40]);
  parent ← style styles "BodyText";
  styles ← styles_add styles (MkParagraphStyle "BodyJustified" parent
    [alignment TA_JUSTIFY; fontSize 11; leading 15; spaceAfter 12]);
  parent ← style styles "Heading2";
  styles ← styles_add styles (MkParagraphStyle "SectionHead" parent
    [fontSize 16; spaceAfter 10; spaceBefore 20]);
  parent ← style styles "Normal";
  styles ← styles_add styles (MkParagraphStyle "TableCaption" parent
    [fontSize 10; alignment TA_CENTER; textColor (HexColor "#666666");
     spaceBefore 6; spaceAfter 16]);
  mret styles.

(** ** [cover_page] *)

Definition cover_page (styles : StyleSheet) : M loc :=
  elements ← new_list [];
  append elements (VFlowable (Spacer 1 (mul (of_int 2) inch)));;
  s ← style styles "CoverTitle";
  append elements (VFlowable (Paragraph COMPANY s));;
  s ← style styles "CoverSubtitle";
  append elements (VFlowable (Paragraph
    ("Quarterly Earnings Report &mdash; Fiscal Year " +:+ str_int YEAR) s));;
  append elements (VFlowable (Spacer 1 (mul (literal 5 1) inch)));;
  s ← style styles "CoverSubtitle";
  append elements (VFlowable (Paragraph
    ("Prepared for Investors and Analysts<br/>" +:+
     "Published: January 15, 2025") s));;
  append elements (VFlowable PageBreak);;
  mret elements.

(** ** [narrative_section] *)

Definition narrative_section (styles : StyleSheet) : M loc :=
  elements ← new_list [];
  s ← style styles "SectionHead";
  append elements (VFlowable (Paragraph "Executive Summary" s));;
  s ← style styles "BodyJustified";
  append elements (VFlowable (Paragraph
    (COMPANY +:+ " delivered record-breaking results in fiscal year " +:+
     str_int YEAR +:+ ", " +:+
     "driven by strong demand across our cloud computing and enterprise " +:+
     "AI product lines. Total annual revenue reached $10,552 million, " +:+
     "representing year-over-year growth of 34%. The company continued to " +:+
     "invest in next-generation GPU architectures and expanded its data " +:+
     "centre footprint in three new regions.") s));;
  s ← style styles "BodyJustified";
  append elements (VFlowable (Paragraph
    ("Third-quarter performance was particularly notable, with revenue of " +:+
     "$2,847 million and net income of $456 million. This was driven by " +:+
     "a 42% increase in data-centre revenue and the successful launch of " +:+
     "our new inference acceleration platform. Earnings per share for Q3 " +:+
     "came in at $2.28, exceeding consensus estimates by $0.12.") s));;
  s ← style styles "BodyJustified";
  append elements (VFlowable (Paragraph
    ("Looking ahead, management expects continued momentum in Q1 2025, " +:+
     "with revenue guidance of $3,300 &ndash; $3,500 million. The company " +:+
     "announced a $2 billion share repurchase programme and increased its " +:+
     "quarterly dividend by 15%.") s));;
  append elements (VFlowable (Spacer 1 (mul (literal 3 1) inch)));;
  mret elements.

(** ** [financial_table] *)

Definition table_style : list TableCommand :=
  [ (* Header row *)
    MkCommand "BACKGROUND" (0, 0) (-1, 0) [ArgColor (HexColor "#76B900")];
    MkCommand "TEXTCOLOR" (0, 0) (-1, 0) [ArgColor white];
    MkCommand "FONTNAME" (0, 0) (-1, 0) [ArgName "Helvetica-Bold"];
    MkCommand "FONTSIZE" (0, 0) (-1, 0) [ArgInt 11];
    MkCommand "ALIGN" (0, 0) (-1, 0) [ArgName "CENTER"];
    MkCommand "BOTTOMPADDING" (0, 0) (-1, 0) [ArgInt 10];
    MkCommand "TOPPADDING" (0, 0) (-1, 0) [ArgInt 10];
    (* Data rows *)
    MkCommand "FONTNAME" (0, 1) (-1, -1) [ArgName "Helvetica"];
    MkCommand "FONTSIZE" (0, 1) (-1, -1) [ArgInt 10];
    MkCommand "ALIGN" (1, 1) (-1, -1) [ArgName "RIGHT"];
    MkCommand "ALIGN" (0, 1) (0, -1) [ArgName "LEFT"];
    MkCommand "BOTTOMPADDING" (0, 1) (-1, -1) [ArgInt 7];
    MkCommand "TOPPADDING" (0, 1) (-1, -1) [ArgInt 7];
    (* Alternating row colours *)
    MkCommand "BACKGROUND" (0, 1) (-1, 1) [ArgColor (HexColor "#F5F5F5")];
    MkCommand "BACKGROUND" (0, 3) (-1, 3) [ArgColor (HexColor "#F5F5F5")];
    MkCommand "BACKGROUND" (0, 5) (-1, 5) [ArgColor (HexColor "#E8E8E8")];
    (* Totals row bold *)
    MkCommand "FONTNAME" (0, -1) (-1, -1) [ArgName "Helvetica-Bold"];
    (* Grid *)
    MkCommand "GRID" (0, 0) (-1, -1)
      [ArgFloat (literal 5 1); ArgColor (HexColor "#CCCCCC")];
    MkCommand "LINEBELOW" (0, 0) (-1, 0)
      [ArgFloat (literal 15 1); ArgColor (HexColor "#333333")];
    MkCommand "LINEABOVE" (0, -1) (-1, -1)
      [ArgInt 1; ArgColor (HexColor "#333333")] ]%string.

(** The body of the comprehension on line 158: one row list per record. *)
Definition table_row (r : value) : M value :=
  '(q, rev, ni, eps) ← unpack4 r;
  rev_cell ← format_comma rev;
  ni_cell ← format_comma ni;
  eps_cell ← format_fixed2 eps;
  row ← new_list [q; VStr rev_cell; VStr ni_cell; VStr eps_cell];
  mret (VRef row).

(** [sum(r[i] for r in QUARTERLY_DATA)] *)
Definition sum_column (i : nat) : M value :=
  data ← read_list QUARTERLY_DATA;
  column ← for_each (λ r, getitem r i) data;
  py_sum column.

Definition financial_table (styles : StyleSheet) : M loc :=
  elements ← new_list [];
  s ← style styles "SectionHead";
  append elements (VFlowable (Paragraph "Quarterly Financial Highlights" s));;
  (* Build table data *)
  header ← new_list
    [VStr "Quarter"; VStr "Revenue ($M)"; VStr "Net Income ($M)"; VStr "EPS ($)"];
  data ← read_list QUARTERLY_DATA;
  row_refs ← for_each table_row data;
  rows ← new_list row_refs;
  (* Annual totals row *)
  total_rev ← sum_column 1;
  total_ni ← sum_column 2;
  total_eps ← sum_column 3;
  rev_cell ← format_comma total_rev;
  ni_cell ← format_comma total_ni;
  eps_cell ← format_fixed2 total_eps;
  total_row ← new_list
    [VStr "FY 2024 Total"; VStr rev_cell; VStr ni_cell; VStr eps_cell];
  append rows (VRef total_row);;
  header_list ← new_list [VRef header];
  table_data ← list_add header_list rows;
  cells ← read_rows table_data;
  let table := Table cells
    [mul (literal 16 1) inch; mul (literal 15 1) inch;
     mul (literal 16 1) inch; mul (literal 12 1) inch] table_style in
  append elements (VFlowable table);;
  s ← style styles "TableCaption";
  append elements (VFlowable (Paragraph
    ("Table 1: " +:+ COMPANY +:+ " Quarterly Financial Highlights, FY " +:+
     str_int YEAR) s));;
  mret elements.

(** ** [revenue_chart] *)

Definition revenue_chart : M Flowable :=
  data ← read_list QUARTERLY_DATA;
  column ← for_each (λ r, getitem r 1) data;
  revenues ← new_list column;
  chart_data_list ← new_list [VRef revenues];
  data ← read_list QUARTERLY_DATA;
  column ← for_each (λ r, getitem r 0) data;
  names ← new_list column;
  series ← as_list (as_list as_int) (VRef chart_data_list);
  labels ← read_strings names;
  let chart := {|
    chart_x := 60;
    chart_y := 40;
    chart_width := 350;
    chart_height := 180;
    chart_data := series;
    categoryNames := labels;
    categoryAxis_labels_fontName := "Helvetica";
    categoryAxis_labels_fontSize := 9;
    valueMin := 0;
    valueMax := 3500;
    valueStep := 500;
    valueAxis_labels_fontName := "Helvetica";
    valueAxis_labels_fontSize := 9;
    bars0_fillColor := HexColor "#76B900";
    bars0_strokeColor := HexColor "#5A8F00";
    bars0_strokeWidth := literal 5 1;
    barLabels_nudge := 10;
    barLabelFormat := "%d";
    barLabels_fontName := "Helvetica-Bold";
    barLabels_fontSize := 9;
  |} in
  (* Title for the chart *)
  let title := StringShape 225 240
    (COMPANY +:+ " Quarterly Revenue ($M) — FY " +:+ str_int YEAR)
    "middle" "Helvetica-Bold" 11 in
  mret (Drawing 450 260 [ChartShape chart; title]).

(** ** [build_pdf] *)

(** Lines 257 to 277: the styles and the story. *)
Definition build_pdf_elements : M loc :=
  styles ← build_styles;
  elements ← new_list [];
  (* Page 1: cover *)
  part ← cover_page styles;
  extend elements part;;
  (* Page 2: executive summary *)
  part ← narrative_section styles;
  extend elements part;;
  (* Financial table *)
  part ← financial_table styles;
  extend elements part;;
  append elements (VFlowable (Spacer 1 (mul (literal 4 1) inch)));;
  (* Revenue bar chart *)
  s ← style styles "SectionHead";
  append elements (VFlowable (Paragraph "Revenue Trend" s));;
  chart ← revenue_chart;
  append elements (VFlowable chart);;
  s ← style styles "TableCaption";
  append elements (VFlowable (Paragraph
    ("Figure 1: " +:+ COMPANY +:+ " Quarterly Revenue Trend, FY " +:+
     str_int YEAR) s));;
  mret elements.

(** [doc.build(elements)]: the engine lays the story out and writes the
    file named by the template.  The layout itself is the library's: what
    the engine makes of the story, and any exception it raises from the
    content of a flowable (a table style that names a row the table does
    not have, say), is not embedded.  The story of the shipped data set
    is laid out without one; the properties below that run [doc_build]
    are about that story, or hold however the run ends. *)
Definition doc_build (doc : SimpleDocTemplate) (elements : loc) : M unit :=
  story ← read_story elements;
  write_file (filename doc) (Rendered doc story).

Definition build_pdf (script_dir : path) : M unit :=
  let doc := {|
    filename := OUTPUT_PDF script_dir;
    pagesize := letter;
    leftMargin := inch;
    rightMargin := inch;
    topMargin := inch;
    bottomMargin := inch;
  |} in
  elements ← build_pdf_elements;
  (* Build the PDF *)
  doc_build doc elements;;
  print (CreatedLine (OUTPUT_PDF script_dir));;
  size ← stat (OUTPUT_PDF script_dir);
  print (FileSizeLine size).

(** Running the script: the module level, then [build_pdf()]. *)
Definition main (script_dir : path) : M unit :=
  module_level script_dir;;
  build_pdf script_dir.

(** The state a run starts in: no list object yet, nothing printed. *)
Definition start (files : gmap path node) : State := MkState [] files [].

(** The state after the module level, with [rows] as the content of
    [QUARTERLY_DATA]. *)
Definition imported (rows : list value) (files : gmap path node) : State :=
  MkState [rows] files [].

(** * Observing a run *)

Definition result {A} (o : outcome A) : option A :=
  match o with
  | Return a _ => Some a
  | Raise _ _ => None
  end.

(** The flowables of the list a routine returns. *)
Definition flowables_of (routine : M loc) : M (list Flowable) :=
  elements ← routine; read_story elements.

(** The content of [QUARTERLY_DATA] in a state. *)
Definition dataset (σ : State) : option (list value) := heap σ !! QUARTERLY_DATA.

(** The data set as the comment on line 46 types it. *)
Record Quarter := MkQuarter {
  quarter : string;
  revenue : Z;
  net_income : Z;
  eps : float64;
}.

Definition tuple_of (q : Quarter) : value :=
  VTuple [VStr (quarter q); VInt (revenue q); VInt (net_income q); VFloat (eps q)].

Definition quarters : list Quarter :=
  [ MkQuarter "Q1 2024" 2105 312 (literal 156 2);
    MkQuarter "Q2 2024" 2498 389 (literal 195 2);
    MkQuarter "Q3 2024" 2847 456 (literal 228 2);
    MkQuarter "Q4 2024" 3102 521 (literal 261 2) ].

(** [sum] over floats as CPython 3.12 and later computes it: Neumaier's
    compensated summation, the correction added at the end. *)
Fixpoint sum_compensated (f c : float64) (xs : list float64) : float64 :=
  match xs with
  | [] =>
      match c with
      | S754_finite _ _ _ => add f c
      | _ => f
      end
  | x :: rest =>
      let t := add f x in
      let c' := if leb (abs x) (abs f) then add c (add (sub f t) x)
                else add c (add (sub x t) f) in
      sum_compensated t c' rest
  end.

(** The story, fragment by fragment. *)
Definition is_page_break (f : Flowable) : bool :=
  match f with
  | PageBreak => true
  | _ => false
  end.

Inductive shape_kind := ChartKind | StringKind.

Inductive fragment :=
| SpacerFragment
| ParagraphFragment (style : string)
| PageBreakFragment
| TableFragment
| DrawingFragment (shapes : list shape_kind).

Definition shape_kind_of (s : Shape) : shape_kind :=
  match s with
  | ChartShape _ => ChartKind
  | StringShape _ _ _ _ _ _ => StringKind
  end.

Definition fragment_of (f : Flowable) : fragment :=
  match f with
  | Spacer _ _ => SpacerFragment
  | Paragraph _ s => ParagraphFragment (style_name s)
  | PageBreak => PageBreakFragment
  | Table _ _ _ => TableFragment
  | Drawing _ _ shapes => DrawingFragment (shape_kind_of <$> shapes)
  end.

(** Spacers and section headings separate the content; the rest is the
    content the specification lists. *)
Definition is_content (f : fragment) : bool :=
  match f with
  | SpacerFragment => false
  | ParagraphFragment s => negb (String.eqb s "SectionHead")
  | _ => true
  end.

Definition paragraph_text (f : Flowable) : option string :=
  match f with
  | Paragraph t _ => Some t
  | _ => None
  end.



(** The cells of the first table of a story. *)
Definition table_cells (fs : list Flowable) : option (list (list string)) :=
  head (omap (λ f, match f with Table cells _ _ => Some cells | _ => None end) fs).

(** The charts of a drawing. *)
Definition charts_of (f : Flowable) : list VerticalBarChart :=
  match f with
  | Drawing _ _ shapes =>
      omap (λ s, match s with ChartShape c => Some c | _ => None end) shapes
  | _ => []
  end.

(** The sum of column [j] of some rows, each cell read by [value_of]. *)
Definition column_sum (value_of : string → option Z) (j : nat)
    (rows : list (list string)) : option Z :=
  foldr (λ row acc, c ← row !! j; v ← value_of c; s ← acc; Some (v + s))
        (Some 0) rows.

Definition cell_value (value_of : string → option Z) (j : nat)
    (row : list string) : option Z :=
  c ← row !! j; value_of c.

(** The engine labels a bar with [barLabelFormat % value]; ["%d"] prints
    an [int] in decimal. *)
Definition percent_format (fmt : string) (v : Z) : option string :=
  if String.eqb fmt "%d" then Some (str_int v) else None.

Definition bar_labels (c : VerticalBarChart) : list (list (option string)) :=
  (λ series : list Z, percent_format (barLabelFormat c) <$> series)
    <$> chart_data c.

(** The values the value axis marks. *)
Definition axis_ticks (c : VerticalBarChart) : list Z :=
  (λ i, valueMin c + i * valueStep c)
    <$> seqZ 0 ((valueMax c - valueMin c) / valueStep c + 1).

(** Every entry of the file system lies in a directory. *)
Definition in_directory (f : gmap path node) (p : path) : bool :=
  match p with
  | [] => true
  | _ :: parent =>
      match lookup_node f parent with
      | Some Dir => true
      | _ => false
      end
  end.

Definition tree_shaped (f : gmap path node) : Prop :=
  map_Forall (λ p _, Is_true (in_directory f p)) f.

(** The template [build_pdf] creates. *)
Definition doc_template (script_dir : path) : SimpleDocTemplate :=
  MkDoc (OUTPUT_PDF script_dir) letter inch inch inch inch.

(** * Runs of the routines *)

(** A routine with the style sheet [build_pdf] gives it. *)
Definition with_styles {A} (routine : StyleSheet → M A) : M A :=
  styles ← build_styles; routine styles.

(** The state after the module level of the script as shipped. *)
Definition shipped (files : gmap path node) : State :=
  imported QUARTERLY_DATA_rows files.

(** The cells of the table [financial_table] builds in a state. *)
Definition financial_table_cells (σ : State) : option (list (list string)) :=
  result (run (flowables_of (with_styles financial_table)) σ) ≫= table_cells.

(** The chart [revenue_chart] builds in a state. *)
Definition revenue_chart_chart (σ : State) : option VerticalBarChart :=
  result (run revenue_chart σ) ≫= λ d, head (charts_of d).

(** The story [build_pdf] hands to the engine in a state. *)
Definition story (σ : State) : option (list Flowable) :=
  result (run (flowables_of build_pdf_elements) σ).

(** The flowables a routine returns in a state. *)
Definition flowables (routine : M loc) (σ : State) : option (list Flowable) :=
  result (run (flowables_of routine) σ).

(** The cells a record of the data set is shown as. *)
Definition row_of (q : Quarter) : list string :=
  [quarter q; format_thousands (revenue q); format_thousands (net_income q);
   format_2f (eps q)].



(** The style sheet [build_styles] returns. *)
Definition script_styles : StyleSheet :=
  default ∅ (result (run build_styles (shipped ∅))).

(** The story and the store of the script as shipped. *)
Definition shipped_story : list Flowable := default [] (story (shipped ∅)).
Definition shipped_heap : list (list value) :=
  heap (final_state (run build_pdf_elements (shipped ∅))).

(** What a run prints. *)
Definition report (script_dir : path) : list output_line :=
  [CreatedLine (OUTPUT_PDF script_dir);
   FileSizeLine (Rendered (doc_template script_dir) shipped_story)].

(** * Properties of routines *)

(** ** A frame rule for list objects

    [keeps n h h']: the first [n] objects of the store are unchanged.
    [safe n m Q]: from a store with at least [n] objects, [m] keeps the
    first [n], whether it returns or raises, and what it returns
    satisfies [Q]. *)

Definition keeps (n : nat) (h h' : list (list value)) : Prop :=
  (n ≤ length h')%nat ∧ take n h' = take n h.

Definition safe {A : Type} (n : nat) (m : M A) (Q : A → Prop) : Prop :=
  ∀ σ, (n ≤ length (heap σ))%nat →
    keeps n (heap σ) (heap (final_state (m σ)))
    ∧ ∀ a σ', m σ = Return a σ' → Q a.

Definition fresh (n : nat) : loc → Prop := λ l, (n ≤ l)%nat.
Definition any {A : Type} : A → Prop := λ _, True.

(** ** Routines that only touch the store

    [in_world files out o] is the outcome [o] with the file system and
    the output replaced.  A routine is [heap_only] when it neither reads
    nor changes them: its run in any world is its run in the empty world,
    moved to that world. *)

Definition in_world {A : Type} (files : gmap path node) (out : list output_line)
    (o : outcome A) : outcome A :=
  match o with
  | Return a σ => Return a (MkState (heap σ) files out)
  | Raise e σ => Raise e (MkState (heap σ) files out)
  end.

Definition heap_only {A : Type} (m : M A) : Prop :=
  ∀ h files out,
    m (MkState h files out) = in_world files out (m (MkState h ∅ [])).

(** ** Operations that only touch the file system *)

Definition only_files {A : Type} (m : M A) : Prop :=
  ∀ σ, heap (final_state (m σ)) = heap σ
       ∧ stdout (final_state (m σ)) = stdout σ.

(** * Two file systems to run the script in *)

Definition checkout_dir : path := ["blogdemo"; "src"]%string.

(** A fresh checkout: the script's directory, no [data] directory. *)
Definition fresh_checkout : gmap path node :=
  <[checkout_dir := Dir]> (<[["src"%string] := Dir]> ∅).

(** The same after an earlier run: [data] and a document are there. *)
Definition earlier_run : gmap path node :=
  <[OUTPUT_PDF checkout_dir := File (Bytes "%PDF-1.4 earlier")]>
    (<[OUTPUT_DIR checkout_dir := Dir]> fresh_checkout).

(** * The script on any data set of the documented type *)

(** The sum of a column of integers. *)
Definition total (zs : list Z) : Z := foldr Z.add 0 zs.

(** [sum] of a column of floats: [0 + x1], then the others, left to right. *)
Definition float_total (xs : list float64) : value :=
  match xs with
  | [] => VInt 0
  | x :: rest => VFloat (foldl add (add (of_int 0) x) rest)
  end.

Definition format_total (v : value) : string :=
  match v with
  | VInt n => format_2f (of_int n)
  | VFloat x => format_2f x
  | _ => ""
  end.

(** The totals row of a data set. *)
Definition totals_of (qs : list Quarter) : list string :=
  ["FY 2024 Total"; format_thousands (total (revenue <$> qs));
   format_thousands (total (net_income <$> qs));
   format_total (float_total (eps <$> qs))].

Definition table_header : list string :=
  ["Quarter"; "Revenue ($M)"; "Net Income ($M)"; "EPS ($)"].

(** The styles the routines ask the sheet for. *)
Definition the_style (name : string) : ParagraphStyle :=
  default (SampleStyle "") (script_styles !! name).

(** The chart with another series and other names. *)
Definition with_series (c : VerticalBarChart) (series : list (list Z))
    (names : list string) : VerticalBarChart :=
  {| chart_x := chart_x c; chart_y := chart_y c;
     chart_width := chart_width c; chart_height := chart_height c;
     chart_data := series; categoryNames := names;
     categoryAxis_labels_fontName := categoryAxis_labels_fontName c;
     categoryAxis_labels_fontSize := categoryAxis_labels_fontSize c;
     valueMin := valueMin c; valueMax := valueMax c; valueStep := valueStep c;
     valueAxis_labels_fontName := valueAxis_labels_fontName c;
     valueAxis_labels_fontSize := valueAxis_labels_fontSize c;
     bars0_fillColor := bars0_fillColor c;
     bars0_strokeColor := bars0_strokeColor c;
     bars0_strokeWidth := bars0_strokeWidth c;
     barLabels_nudge := barLabels_nudge c;
     barLabelFormat := barLabelFormat c;
     barLabels_fontName := barLabels_fontName c;
     barLabels_fontSize := barLabels_fontSize c |}.

(** The cells of the table for a data set. *)
Definition cells_for (qs : list Quarter) : list (list string) :=
  table_header :: (row_of <$> qs) ++ [totals_of qs].

(** The story for a data set: the story of the script as shipped, with
    the cells of the table and the series and names of the chart taken
    from the data set. *)
Definition flowable_for (qs : list Quarter) (f : Flowable) : Flowable :=
  match f with
  | Table _ widths style => Table (cells_for qs) widths style
  | Drawing w h shapes =>
      Drawing w h
        ((λ s, match s with
               | ChartShape c =>
                   ChartShape (with_series c [revenue <$> qs] (quarter <$> qs))
               | _ => s
               end) <$> shapes)
  | _ => f
  end.

Definition story_for (qs : list Quarter) : list Flowable :=
  flowable_for qs <$> shipped_story.

(** The numbers [f"{n:,}"] is applied to for a data set: the revenues,
    the net incomes and the sums of the two columns.  The table is built
    when each of them is within the interpreter's digit limit. *)
Definition grouped_numbers (qs : list Quarter) : list Z :=
  (revenue <$> qs) ++ (net_income <$> qs)
  ++ [total (revenue <$> qs); total (net_income <$> qs)].

Definition within_str_limit (qs : list Quarter) : bool :=
  forallb fits_str (grouped_numbers qs).

(** [sum] of a column of floats as CPython 3.12 and later computes it:
    [0 + x1], then the others with compensation. *)
Definition compensated_total (xs : list float64) : value :=
  match xs with
  | [] => VInt 0
  | x :: rest =>
      VFloat (sum_compensated (add (of_int 0) x) (S754_zero false) rest)
  end.

(** The EPS total reads the same at two decimals whether [sum] adds from
    left to right or with compensation. *)
Definition eps_total_settled (qs : list Quarter) : bool :=
  String.eqb (format_total (float_total (eps <$> qs)))
             (format_total (compensated_total (eps <$> qs))).

(** A data set other than the shipped one with the same total revenue
    and the same third quarter, and the shipped one with another
    third-quarter revenue. *)
Definition shifted_quarters : list Quarter :=
  [ MkQuarter "Q1 2024" 2104 312 (literal 156 2);
    MkQuarter "Q2 2024" 2499 389 (literal 195 2);
    MkQuarter "Q3 2024" 2847 456 (literal 228 2);
    MkQuarter "Q4 2024" 3102 521 (literal 261 2) ].

Definition restated_quarters : list Quarter :=
  [ MkQuarter "Q1 2024" 2105 312 (literal 156 2);
    MkQuarter "Q2 2024" 2498 389 (literal 195 2);
    MkQuarter "Q3 2024" 2900 456 (literal 228 2);
    MkQuarter "Q4 2024" 3102 521 (literal 261 2) ].

(** * Relations between the file system before and after *)

(** [fs_steps R m]: whether [m] returns or raises, the file system it
    leaves is related by [R] to the one it started from. *)
Definition fs_steps {A : Type} (R : relation (gmap path node)) (m : M A) : Prop :=
  ∀ σ, R (fs σ) (fs (final_state (m σ))).

(** Every entry but the one at [p] is still there, with the same node. *)
Definition entries_kept (p : path) : relation (gmap path node) :=
  λ f f', ∀ q n, q ≠ p → f !! q = Some n → f' !! q = Some n.

(** A tree stays a tree. *)
Definition tree_kept : relation (gmap path node) :=
  λ f f', tree_shaped f → tree_shaped f'.

(** A checkout where a regular file sits at the path of the output
    directory, and one where a directory sits at the path of the
    document. *)
Definition file_at_data : gmap path node :=
  <[OUTPUT_DIR checkout_dir := File (Bytes "notes")]> fresh_checkout.

Definition directory_at_document : gmap path node :=
  <[OUTPUT_PDF checkout_dir := Dir]>
    (<[OUTPUT_DIR checkout_dir := Dir]> fresh_checkout).

(** A record whose revenue is beyond the digit limit of the interpreter. *)
Definition oversized_record : value :=
  VTuple [VStr "Q1 2024"; VInt (10 ^ 4300); VInt 312; VFloat (literal 156 2)].

(** * Decimal digits: what the printers produce *)

Section Digits.
Local Open Scope N_scope.

Lemma chars_pretty_N_go (x : N) (s : string) :
  chars (pretty_N_go x s) = chars (pretty_N_go x "") ++ chars s.
Proof.
  revert s. induction (N.lt_wf_0 x) as [x _ IH]; intros s.
  destruct (decide (x = 0)) as [->|Hx].
  - by rewrite !pretty_N_go_0.
  - rewrite !(pretty_N_go_step x) by lia.
    rewrite (IH (x `div` 10)) by (apply N.div_lt; lia).
    rewrite (IH (x `div` 10) ltac:(apply N.div_lt; lia) (String _ "")).
    by rewrite <-app_assoc.
Qed.

Lemma chars_pretty_N_go_snoc (x : N) :
  0 < x →
  chars (pretty_N_go x "")
  = chars (pretty_N_go (x `div` 10) "") ++ [pretty_N_char (x `mod` 10)].
Proof.
  intros Hx. rewrite pretty_N_go_step by done. by rewrite chars_pretty_N_go.
Qed.

Lemma pretty_N_char_digit (d : N) :
  d < 10 → is_digit (pretty_N_char d) = true
           ∧ digit_value (pretty_N_char d) = Z.of_N d.
Proof.
  intros Hd.
  assert (d = 0 ∨ d = 1 ∨ d = 2 ∨ d = 3 ∨ d = 4 ∨ d = 5
          ∨ d = 6 ∨ d = 7 ∨ d = 8 ∨ d = 9) as Hcases by lia.
  repeat (destruct Hcases as [->|Hcases]; [by vm_compute|]).
  subst. by vm_compute.
Qed.
End Digits.

Lemma parse_digits_snoc (acc : Z) (cs : list ascii) (c : ascii) :
  parse_digits acc (cs ++ [c])
  = v ← parse_digits acc cs;
    if is_digit c then Some (10 * v + digit_value c) else None.
Proof.
  revert acc. induction cs as [|d cs IH]; intros acc; simpl.
  - by destruct (is_digit c).
  - destruct (is_digit d); [apply IH|done].
Qed.

Lemma parse_digits_pretty_N_go (x : N) :
  parse_digits 0 (chars (pretty_N_go x "")) = Some (Z.of_N x).
Proof.
  induction (N.lt_wf_0 x) as [x _ IH].
  destruct (decide (x = 0%N)) as [->|Hx]; [done|].
  rewrite chars_pretty_N_go_snoc, parse_digits_snoc by lia.
  rewrite IH by (apply N.div_lt; lia). simpl.
  destruct (pretty_N_char_digit (x `mod` 10)%N) as [-> ->].
  { apply N.mod_lt; lia. }
  f_equal. pose proof (N.div_mod x 10 ltac:(lia)). lia.
Qed.

Lemma Forall_digit_pretty_N_go (x : N) :
  Forall (λ c, is_digit c = true) (chars (pretty_N_go x "")).
Proof.
  induction (N.lt_wf_0 x) as [x _ IH].
  destruct (decide (x = 0%N)) as [->|Hx]; [constructor|].
  rewrite chars_pretty_N_go_snoc by lia.
  apply Forall_app; split; [apply IH, N.div_lt; lia|].
  repeat constructor. apply pretty_N_char_digit, N.mod_lt; lia.
Qed.

Lemma digits_nonempty (n : Z) : digits n ≠ [].
Proof.
  unfold digits, pretty, pretty_N. case_decide as Hn; [done|].
  rewrite chars_pretty_N_go_snoc by lia. by destruct (chars _).
Qed.

Lemma digits_all_digit (n : Z) : Forall (λ c, is_digit c = true) (digits n).
Proof.
  unfold digits, pretty, pretty_N. case_decide as Hn.
  - by repeat constructor.
  - apply Forall_digit_pretty_N_go.
Qed.

Lemma parse_digits_digits (n : Z) : 0 ≤ n → parse_digits 0 (digits n) = Some n.
Proof.
  intros Hn. unfold digits, pretty, pretty_N. case_decide as H0.
  - replace n with 0 by lia. done.
  - rewrite parse_digits_pretty_N_go. f_equal. lia.
Qed.

(** * The format specifications meet their descriptions *)

Lemma chars_text (cs : list ascii) : chars (text cs) = cs.
Proof. apply list_ascii_of_string_of_list_ascii. Qed.

Lemma digit_not_comma (c : ascii) : is_digit c = true → is_comma c = false.
Proof.
  intros Hc. unfold is_comma. destruct (Ascii.eqb_spec c ",") as [->|]; done.
Qed.

Lemma digit_not_minus (c : ascii) : is_digit c = true → c ≠ "-"%char.
Proof. by intros Hc ->. Qed.

Lemma digit_not_point (c : ascii) : is_digit c = true → Ascii.eqb c "." = false.
Proof. intros Hc. destruct (Ascii.eqb_spec c ".") as [->|]; done. Qed.

Lemma split_sign_sign_chars (s : bool) (body : list ascii) :
  (∀ c, head body = Some c → c ≠ "-"%char) →
  split_sign (sign_chars s ++ body) = (s, body).
Proof.
  intros Hhead. destruct s; [done|]. simpl.
  destruct body as [|c body]; [done|].
  specialize (Hhead c eq_refl). unfold split_sign.
  destruct c as [[] [] [] [] [] [] [] []]; done.
Qed.

Lemma separated_group_thousands (rds : list ascii) (k : nat) :
  Forall (λ c, is_digit c = true) rds →
  (k ≤ 3)%nat → (rds ≠ [] ∨ 1 ≤ k)%nat →
  separated_from_right (group_thousands rds k) k = true.
Proof.
  intros Hds. revert k. induction Hds as [|d rds Hd _ IH]; intros k Hk Hne.
  - destruct Hne as [|Hk1]; [done|]. by destruct k; [lia|].
  - simpl. destruct (Nat.eqb_spec k 3) as [->|Hk3]; simpl.
    + rewrite (digit_not_comma d), Hd by done. simpl. apply IH; lia.
    + rewrite (digit_not_comma d), Hd by done. simpl.
      rewrite (proj2 (Nat.ltb_lt k 3)) by lia. simpl. apply IH; lia.
Qed.

Lemma filter_group_thousands (rds : list ascii) (k : nat) :
  Forall (λ c, is_digit c = true) rds →
  filter (λ c, is_comma c = false) (group_thousands rds k) = rds.
Proof.
  intros Hds. revert k. induction Hds as [|d rds Hd _ IH]; intros k; [done|].
  simpl. destruct (k =? 3)%nat.
  - rewrite filter_cons_False by (by intros ?).
    rewrite filter_cons_True by (by apply digit_not_comma). by rewrite IH.
  - rewrite filter_cons_True by (by apply digit_not_comma). by rewrite IH.
Qed.

Lemma group_thousands_no_minus (rds : list ascii) (k : nat) :
  Forall (λ c, is_digit c = true) rds →
  Forall (λ c, c ≠ "-"%char) (group_thousands rds k).
Proof.
  intros Hds. revert k. induction Hds as [|d rds Hd _ IH]; intros k; [done|].
  simpl. destruct (k =? 3)%nat; repeat constructor;
    auto using digit_not_minus.
Qed.

Lemma head_Forall {A} (P : A → Prop) (l : list A) (x : A) :
  Forall P l → head l = Some x → P x.
Proof. destruct 1; naive_solver. Qed.

Lemma last_group_thousands (rds : list ascii) (k : nat) :
  list.last (group_thousands rds k) = list.last rds.
Proof.
  revert k. induction rds as [|d rds IH]; intros k; [done|].
  cbn [group_thousands]. destruct (k =? 3)%nat.
  - rewrite (last_cons ","%char), last_cons, IH, (last_cons d).
    destruct (list.last rds); reflexivity.
  - rewrite last_cons, IH, (last_cons d). reflexivity.
Qed.

(** Grouping keeps the leading digit in front. *)
Lemma head_grouped (ds : list ascii) :
  head (reverse (group_thousands (reverse ds) 0)) = head ds.
Proof. by rewrite head_reverse, last_group_thousands, last_reverse. Qed.

Lemma length_group_thousands (rds : list ascii) (k : nat) :
  (length rds ≤ length (group_thousands rds k))%nat.
Proof.
  revert k. induction rds as [|d rds IH]; intros k; [done|].
  cbn [group_thousands]. destruct (k =? 3)%nat; cbn [length].
  - specialize (IH 1%nat). lia.
  - specialize (IH (S k)). lia.
Qed.

Lemma pretty_N_char_zero (d : N) :
  (d < 10)%N → pretty_N_char d = "0"%char → d = 0%N.
Proof.
  intros Hd.
  assert (d = 0 ∨ d = 1 ∨ d = 2 ∨ d = 3 ∨ d = 4 ∨ d = 5
          ∨ d = 6 ∨ d = 7 ∨ d = 8 ∨ d = 9)%N as Hcases by lia.
  repeat (destruct Hcases as [->|Hcases]; [by vm_compute|]).
  subst. by vm_compute.
Qed.

(** The decimal printer writes no leading zero. *)
Lemma head_pretty_N_go (x : N) :
  (0 < x)%N →
  ∃ c rest, chars (pretty_N_go x "") = c :: rest ∧ c ≠ "0"%char.
Proof.
  induction (N.lt_wf_0 x) as [x _ IH]. intros Hx.
  rewrite chars_pretty_N_go_snoc by done.
  destruct (decide (x `div` 10 = 0)%N) as [Hq|Hq].
  - rewrite Hq, pretty_N_go_0. eexists _, []. split; [reflexivity|].
    intros Hc. apply pretty_N_char_zero in Hc; [|apply N.mod_lt; lia].
    pose proof (N.div_mod x 10 ltac:(lia)). lia.
  - destruct (IH (x `div` 10)%N) as (c & rest & -> & Hc);
      [apply N.div_lt; lia|by apply N.neq_0_lt_0|].
    by eexists c, _.
Qed.

Lemma head_digits (n : Z) :
  0 < n → ∃ c rest, digits n = c :: rest ∧ c ≠ "0"%char.
Proof.
  intros Hn. unfold digits, pretty, pretty_N. case_decide as H0; [lia|].
  apply head_pretty_N_go. lia.
Qed.

Lemma canonical_grouped (n : Z) :
  canonical_digits (n <? 0)
    (reverse (group_thousands (reverse (digits (Z.abs n))) 0)) = true.
Proof.
  destruct (decide (n = 0)) as [->|Hn]; [by vm_compute|].
  destruct (head_digits (Z.abs n)) as (c & rest & Hds & Hc); [lia|].
  pose proof (head_grouped (digits (Z.abs n))) as Hhead.
  rewrite Hds in Hhead at 2.
  destruct (reverse (group_thousands _ 0)) as [|c' body]; [discriminate Hhead|].
  injection Hhead as ->. unfold canonical_digits.
  destruct c as [[] [] [] [] [] [] [] []]; done.
Qed.

(** [format(n, ",")] is a thousands-separated integer, and it denotes
    [n]. *)
Lemma format_thousands_spec (n : Z) :
  is_thousands_separated (format_thousands n) = true
  ∧ thousands_value (format_thousands n) = Some n.
Proof.
  pose proof (digits_all_digit (Z.abs n)) as Hds.
  pose proof (digits_nonempty (Z.abs n)) as Hne.
  assert (Forall (λ c, is_digit c = true) (reverse (digits (Z.abs n)))) as Hrds
    by by apply Forall_reverse.
  unfold is_thousands_separated, thousands_value, format_thousands.
  rewrite chars_text, split_sign_sign_chars; last first.
  { intros c Hc. eapply (head_Forall (λ c, c ≠ "-"%char)); [|done].
    by apply Forall_reverse, group_thousands_no_minus. }
  rewrite canonical_grouped, andb_true_r, reverse_involutive. split.
  - apply separated_group_thousands; [done|lia|left].
    intros Hnil. apply Hne. by rewrite <-(reverse_involutive (digits _)), Hnil.
  - rewrite filter_reverse, filter_group_thousands, reverse_involutive by done.
    unfold parse_number. destruct (digits (Z.abs n)) eqn:Hd; [done|].
    rewrite <-Hd, parse_digits_digits by lia. simpl. f_equal.
    unfold apply_sign. destruct (Z.ltb_spec n 0); lia.
Qed.

Lemma filter_all {A} (P : A → Prop) `{∀ x, Decision (P x)} (l : list A) :
  Forall P l → filter P l = l.
Proof.
  induction 1 as [|x l Hx _ IH]; [done|].
  by rewrite filter_cons_True, IH.
Qed.

Lemma parse_number_app_cons (l : list ascii) (c : ascii) (r : list ascii) :
  parse_number (l ++ c :: r) = parse_digits 0 (l ++ c :: r).
Proof. by destruct l. Qed.

Lemma round_half_even_nearest (num den : Z) :
  0 ≤ num → 0 < den →
  0 ≤ round_half_even num den
  ∧ 2 * Z.abs (round_half_even num den * den - num) ≤ den.
Proof.
  intros Hnum Hden. unfold round_half_even.
  pose proof (Z.div_mod num den ltac:(lia)) as Hdm.
  pose proof (Z.mod_pos_bound num den Hden) as Hmod.
  pose proof (Z.div_pos num den Hnum Hden) as Hq.
  destruct (Z.compare_spec (2 * (num `mod` den)) den) as [Heq|Hlt|Hgt];
    [destruct (Z.even _)|..]; split; nia.
Qed.

(** A tie goes to the even neighbour. *)
Lemma round_half_even_tie (num den : Z) :
  0 ≤ num → 0 < den → 2 * (num `mod` den) = den →
  Z.even (round_half_even num den) = true.
Proof.
  intros Hnum Hden Htie. unfold round_half_even.
  rewrite Htie, Z.compare_refl.
  destruct (Z.even (num `div` den)) eqn:Heven; [done|].
  rewrite Z.even_add, Heven. done.
Qed.

Lemma hundredths_nonneg (m : positive) (e : Z) : 0 ≤ hundredths m e.
Proof.
  unfold hundredths. destruct (Z.leb_spec 0 e).
  - pose proof (Z.pow_nonneg 2 e). nia.
  - apply round_half_even_nearest; [lia|]. apply Z.pow_pos_nonneg; lia.
Qed.

(** [hundredths m e] is [100 * m * 2^e] rounded to the nearest integer. *)
Lemma hundredths_nearest (m : positive) (e : Z) :
  if 0 <=? e then hundredths m e = 100 * Z.pos m * 2 ^ e
  else 2 * Z.abs (hundredths m e * 2 ^ (- e) - 100 * Z.pos m) ≤ 2 ^ (- e).
Proof.
  unfold hundredths. destruct (Z.leb_spec 0 e); [lia|].
  replace (100 * Z.pos m) with (Z.pos m * 100) by lia.
  apply round_half_even_nearest; [lia|]. apply Z.pow_pos_nonneg; lia.
Qed.

Lemma two_decimals_spec (s : bool) (q : Z) :
  0 ≤ q →
  is_two_decimal (text (sign_chars s ++ two_decimals q)) = true
  ∧ hundredths_value (text (sign_chars s ++ two_decimals q))
    = Some (apply_sign s q).
Proof.
  intros Hq.
  pose proof (digits_all_digit (q `div` 100)) as Hds.
  pose proof (digits_nonempty (q `div` 100)) as Hne.
  assert (0 ≤ q `div` 100) as Hhi by (apply Z.div_pos; lia).
  pose proof (Z.mod_pos_bound q 100 ltac:(lia)) as Hlo.
  pose proof (Z.mod_pos_bound q 10 ltac:(lia)) as Hlo1.
  assert (0 ≤ (q `mod` 100) `div` 10 < 10) as Hlo2.
  { split; [apply Z.div_pos; lia|apply Z.div_lt_upper_bound; lia]. }
  destruct (pretty_N_char_digit (Z.to_N ((q `mod` 100) `div` 10)))
    as [Hd1 Hv1]; [lia|].
  destruct (pretty_N_char_digit (Z.to_N (q `mod` 10))) as [Hd2 Hv2]; [lia|].
  unfold is_two_decimal, hundredths_value, two_decimals.
  rewrite chars_text, split_sign_sign_chars; last first.
  { intros c Hc. apply digit_not_minus.
    destruct (digits (q `div` 100)) as [|d ds]; [done|].
    inversion Hds; simplify_eq/=. done. }
  simpl. split.
  - rewrite reverse_app. simpl. rewrite Hd1, Hd2. simpl.
    rewrite length_reverse.
    apply andb_true_iff; split.
    + apply forallb_forall, Forall_forall, Forall_reverse. done.
    + by destruct (digits (q `div` 100)).
  - rewrite list.filter_app.
    rewrite filter_all
      by (eapply List.Forall_impl; [|exact Hds]; intros c Hc; simpl in *;
          by rewrite digit_not_point).
    rewrite filter_cons_False by (by intros ?).
    rewrite !filter_cons_True by (by rewrite digit_not_point).
    rewrite filter_nil.
    rewrite parse_number_app_cons.
    change ([?a; ?b]) with ([a] ++ [b]). rewrite !app_assoc.
    rewrite !parse_digits_snoc, parse_digits_digits by done. simpl.
    rewrite Hd1, Hd2, Hv1, Hv2. simpl. do 2 f_equal.
    rewrite !Z2N.id by lia.
    pose proof (Z.div_mod q 100 ltac:(lia)).
    pose proof (Z.div_mod (q `mod` 100) 10 ltac:(lia)).
    assert ((q `mod` 100) `mod` 10 = q `mod` 10) as <-; [|lia].
    apply Z.mod_mod_divide. by exists 10.
Qed.

(** [format(x, ".2f")] of a finite [x] is a two-decimal value, and it
    denotes [x] in hundredths, correctly rounded. *)
Lemma format_2f_spec (s : bool) (m : positive) (e : Z) :
  is_two_decimal (format_2f (S754_finite s m e)) = true
  ∧ hundredths_value (format_2f (S754_finite s m e))
    = Some (apply_sign s (hundredths m e)).
Proof. apply two_decimals_spec, hundredths_nonneg. Qed.

(** * The frame rule *)

Section Frame.
Context (n : nat).

Lemma keeps_refl h : (n ≤ length h)%nat → keeps n h h.
Proof. by split. Qed.

Lemma keeps_trans h1 h2 h3 : keeps n h1 h2 → keeps n h2 h3 → keeps n h1 h3.
Proof. intros [? E1] [? E2]. split; [done|]. by rewrite E2. Qed.

Lemma safe_ret {A} (a : A) (Q : A → Prop) : Q a → safe n (mret a) Q.
Proof.
  intros Ha σ Hn. split; [by apply keeps_refl|].
  intros a' σ' [= <- <-]. done.
Qed.

Lemma safe_raise {A} (e : exn) (Q : A → Prop) : safe n (raise e) Q.
Proof. intros σ Hn. split; [by apply keeps_refl|]. intros a' σ' [=]. Qed.

Lemma safe_bind {A B} (m : M A) (f : A → M B) (Q : A → Prop) (R : B → Prop) :
  safe n m Q → (∀ a, Q a → safe n (f a) R) → safe n (m ≫= f) R.
Proof.
  intros Hm Hf σ Hn. destruct (Hm σ Hn) as [Hkeep HQ].
  unfold mbind, M_bind. destruct (m σ) as [a σ1|e σ1] eqn:Hrun;
    simpl in *; [|split; [done|intros ?? [=]]].
  destruct (Hf a (HQ a σ1 eq_refl) σ1) as [Hkeep' HR]; [by destruct Hkeep|].
  split; [by eapply keeps_trans|done].
Qed.

Lemma safe_weaken {A} (m : M A) (Q Q' : A → Prop) :
  safe n m Q → (∀ a, Q a → Q' a) → safe n m Q'.
Proof. intros Hm HQ σ Hn. destruct (Hm σ Hn). naive_solver. Qed.

Lemma safe_new_list items : safe n (new_list items) (fresh n).
Proof.
  intros σ Hn. unfold new_list. simpl. split.
  - split; [rewrite length_app; lia|]. by rewrite take_app_le.
  - by intros a σ' [= <- <-].
Qed.

Lemma safe_read_list l : safe n (read_list l) any.
Proof.
  intros σ Hn. unfold read_list.
  destruct (heap σ !! l); (split; [by apply keeps_refl|done]).
Qed.

Lemma safe_write_list l items : fresh n l → safe n (write_list l items) any.
Proof.
  intros Hl σ Hn. unfold write_list. simpl. split; [|done].
  split; [by rewrite length_insert|]. by apply take_insert_ge.
Qed.

Lemma safe_append l v : fresh n l → safe n (append l v) any.
Proof.
  intros Hl. eapply safe_bind; [apply safe_read_list|].
  intros items _. by apply safe_write_list.
Qed.

Lemma safe_extend l other : fresh n l → safe n (extend l other) any.
Proof.
  intros Hl. eapply safe_bind; [apply safe_read_list|]. intros more _.
  eapply safe_bind; [apply safe_read_list|]. intros items _.
  by apply safe_write_list.
Qed.

Lemma safe_list_add a b : safe n (list_add a b) (fresh n).
Proof.
  eapply safe_bind; [apply safe_read_list|]. intros xs _.
  eapply safe_bind; [apply safe_read_list|]. intros ys _.
  apply safe_new_list.
Qed.

Lemma safe_for_each {A} (body : value → M A) (Q : A → Prop) items :
  (∀ v, safe n (body v) Q) → safe n (for_each body items) (Forall Q).
Proof.
  intros Hbody. induction items as [|v items IH]; simpl.
  - by apply safe_ret.
  - eapply safe_bind; [apply Hbody|]. intros a Ha.
    eapply safe_bind; [apply IH|]. intros others Hothers.
    apply safe_ret. by constructor.
Qed.
End Frame.

Create HintDb safe.

Ltac safe_unfold_state :=
  let σ := fresh "σ" in let Hn := fresh "Hn" in
  intros σ Hn; simpl; repeat case_match; simpl;
  (split; [by apply keeps_refl|try done; by intros ?? [=]]).

Ltac safe_cases :=
  repeat case_match; first [by apply safe_raise | by apply safe_ret].

Section FramePrimitives.
Context (n : nat).

Lemma safe_style styles name : safe n (style styles name) any.
Proof. unfold style. safe_cases. Qed.
Lemma safe_styles_add styles s : safe n (styles_add styles s) any.
Proof. unfold styles_add. safe_cases. Qed.
Lemma safe_unpack4 r : safe n (unpack4 r) any.
Proof. unfold unpack4. safe_cases. Qed.
Lemma safe_getitem r i : safe n (getitem r i) any.
Proof. unfold getitem. safe_cases. Qed.
Lemma safe_float_of_int z : safe n (float_of_int z) any.
Proof. unfold float_of_int. safe_cases. Qed.
Lemma safe_py_add a b : safe n (py_add a b) any.
Proof.
  unfold py_add. repeat case_match;
    first [ by apply safe_raise | by apply safe_ret
          | eapply safe_bind; [apply safe_float_of_int|];
            intros ? _; by apply safe_ret ].
Qed.
Lemma safe_format_comma v : safe n (format_comma v) any.
Proof. unfold format_comma. safe_cases. Qed.
Lemma safe_format_fixed2 v : safe n (format_fixed2 v) any.
Proof.
  unfold format_fixed2. repeat case_match;
    first [ by apply safe_raise | by apply safe_ret
          | eapply safe_bind; [apply safe_float_of_int|];
            intros ? _; by apply safe_ret ].
Qed.
Lemma safe_as_str v : safe n (as_str v) any.
Proof. unfold as_str. safe_cases. Qed.
Lemma safe_as_int v : safe n (as_int v) any.
Proof. unfold as_int. safe_cases. Qed.
Lemma safe_as_flowable v : safe n (as_flowable v) any.
Proof. unfold as_flowable. safe_cases. Qed.

Lemma safe_sum_from acc items : safe n (sum_from acc items) any.
Proof.
  revert acc. induction items as [|v items IH]; intros acc; simpl.
  - by apply safe_ret.
  - eapply safe_bind; [apply safe_py_add|]. intros acc' _. apply IH.
Qed.

Lemma safe_as_list {A} (item : value → M A) v :
  (∀ x, safe n (item x) any) → safe n (as_list item v) any.
Proof.
  intros Hitem. unfold as_list. destruct v; try by apply safe_raise.
  eapply safe_bind; [apply safe_read_list|]. intros items _.
  eapply safe_weaken; [by apply safe_for_each|done].
Qed.

Lemma safe_os_mkdir p : safe n (os_mkdir p) any.
Proof. unfold os_mkdir. safe_unfold_state. Qed.
Lemma safe_is_dir p : safe n (is_dir p) any.
Proof. unfold is_dir. safe_unfold_state. Qed.
Lemma safe_write_file p c : safe n (write_file p c) any.
Proof. unfold write_file. safe_unfold_state. Qed.
Lemma safe_stat p : safe n (stat p) any.
Proof. unfold stat. safe_unfold_state. Qed.
Lemma safe_print line : safe n (print line) any.
Proof. unfold print. safe_unfold_state. Qed.

Lemma safe_try_except {A} (m : M A) (handler : exn → M A) (Q : A → Prop) :
  safe n m Q → (∀ e, safe n (handler e) Q) → safe n (try_except m handler) Q.
Proof.
  intros Hm Hh σ Hn. destruct (Hm σ Hn) as [Hkeep HQ].
  unfold try_except. destruct (m σ) as [a σ1|e σ1] eqn:Hrun; simpl in *.
  - split; [done|]. intros ?? [= <- <-]. by eapply HQ.
  - destruct (Hh e σ1) as [Hkeep' HR]; [by destruct Hkeep|].
    split; [by eapply keeps_trans|done].
Qed.
End FramePrimitives.

Global Hint Resolve safe_ret safe_raise safe_new_list safe_read_list
  safe_write_list safe_append safe_extend safe_list_add safe_style
  safe_styles_add safe_unpack4 safe_getitem safe_py_add safe_format_comma
  safe_format_fixed2 safe_as_str safe_as_int safe_as_flowable safe_sum_from
  safe_os_mkdir safe_is_dir safe_write_file safe_stat safe_print : safe.

(** One statement of a routine at a time. *)
Ltac safe_step :=
  lazymatch goal with
  | |- safe _ (mbind _ _) _ =>
      eapply safe_bind; [solve [eauto with safe]|intros ? ?]
  | |- safe _ (let '(_, _) := ?p in _) _ => destruct p
  | |- safe _ (if ?b then _ else _) _ => destruct b
  | |- safe _ _ _ => solve [eauto with safe]
  end.
Ltac safe_auto := repeat safe_step.

Section FrameRoutines.
Context (n : nat).

Lemma safe_build_styles : safe n build_styles any.
Proof. unfold build_styles. safe_auto. Qed.

Lemma safe_cover_page styles : safe n (cover_page styles) (fresh n).
Proof. unfold cover_page. safe_auto. Qed.

Lemma safe_narrative_section styles :
  safe n (narrative_section styles) (fresh n).
Proof. unfold narrative_section. safe_auto. Qed.

Lemma safe_table_row r : safe n (table_row r) any.
Proof. unfold table_row. safe_auto. Qed.

Lemma safe_column (i : nat) items :
  safe n (for_each (λ r, getitem r i) items) any.
Proof.
  eapply safe_weaken; [apply safe_for_each; intros; apply safe_getitem|done].
Qed.

Lemma safe_sum_column i : safe n (sum_column i) any.
Proof. unfold sum_column. pose proof safe_column. safe_auto. Qed.

Lemma safe_rows items : safe n (for_each table_row items) any.
Proof.
  eapply safe_weaken; [apply safe_for_each; intros; apply safe_table_row|done].
Qed.

Lemma safe_read_rows l : safe n (read_rows l) any.
Proof. apply safe_as_list. intros x. apply safe_as_list, safe_as_str. Qed.

Lemma safe_read_story l : safe n (read_story l) any.
Proof. apply safe_as_list, safe_as_flowable. Qed.

Lemma safe_financial_table styles : safe n (financial_table styles) (fresh n).
Proof.
  unfold financial_table.
  pose proof safe_rows. pose proof safe_sum_column. pose proof safe_read_rows.
  safe_auto.
Qed.

Lemma safe_revenue_chart : safe n revenue_chart any.
Proof.
  unfold revenue_chart, read_strings. pose proof safe_column.
  assert (∀ v, safe n (as_list (as_list as_int) v) any) as Hseries.
  { intros v. apply safe_as_list. intros x. apply safe_as_list, safe_as_int. }
  assert (∀ v, safe n (as_list as_str v) any) as Hnames.
  { intros v. apply safe_as_list, safe_as_str. }
  safe_auto.
Qed.

Lemma safe_build_pdf_elements : safe n build_pdf_elements (fresh n).
Proof.
  unfold build_pdf_elements.
  pose proof safe_build_styles. pose proof safe_cover_page.
  pose proof safe_narrative_section. pose proof safe_financial_table.
  pose proof safe_revenue_chart.
  safe_auto.
Qed.

Lemma safe_doc_build doc l : safe n (doc_build doc l) any.
Proof. unfold doc_build. pose proof safe_read_story. safe_auto. Qed.

Lemma safe_build_pdf dir : safe n (build_pdf dir) any.
Proof.
  unfold build_pdf. cbv zeta.
  pose proof safe_build_pdf_elements. pose proof safe_doc_build.
  safe_auto.
Qed.
End FrameRoutines.

Lemma keeps_lookup (n : nat) (h h' : list (list value)) (l : loc) :
  keeps n h h' → (l < n)%nat → h' !! l = h !! l.
Proof.
  intros [_ Htake] Hl.
  rewrite <-(lookup_take_lt h' n l), <-(lookup_take_lt h n l) by done.
  by rewrite Htake.
Qed.

(** A routine that is [safe] at the size of the store leaves every
    object of the store as it was. *)
Lemma safe_frame {A} (m : M A) (Q : nat → A → Prop) (σ : State) (l : loc) :
  (∀ n, safe n m (Q n)) →
  heap (final_state (run m σ)) !! l = heap σ !! l
  ∨ heap σ !! l = None.
Proof.
  intros Hm. destruct (decide (l < length (heap σ))%nat) as [Hl|Hl].
  - left. destruct (Hm (length (heap σ)) σ) as [Hkeep _]; [done|].
    by eapply keeps_lookup.
  - right. apply lookup_ge_None. lia.
Qed.

(** * Independence of the file system and the output *)

Lemma heap_only_ret {A} (a : A) : heap_only (mret a).
Proof. done. Qed.

Lemma heap_only_raise {A} (e : exn) : heap_only (raise e : M A).
Proof. done. Qed.

Lemma heap_only_bind {A B} (m : M A) (f : A → M B) :
  heap_only m → (∀ a, heap_only (f a)) → heap_only (m ≫= f).
Proof.
  intros Hm Hf h files out. unfold mbind, M_bind.
  rewrite (Hm h files out).
  destruct (m (MkState h ∅ [])) as [a [h1 f1 o1]|e σ1]; simpl; [|done].
  rewrite (Hf a h1 files out), (Hf a h1 f1 o1).
  by destruct (f a (MkState h1 ∅ [])).
Qed.

Lemma heap_only_new_list items : heap_only (new_list items).
Proof. done. Qed.

Lemma heap_only_read_list l : heap_only (read_list l).
Proof. intros h files out. unfold read_list. simpl. by destruct (h !! l). Qed.

Lemma heap_only_write_list l items : heap_only (write_list l items).
Proof. done. Qed.

Lemma heap_only_for_each {A} (body : value → M A) items :
  (∀ v, heap_only (body v)) → heap_only (for_each body items).
Proof.
  intros Hbody. induction items as [|v items IH]; simpl; [done|].
  apply heap_only_bind; [done|]. intros a.
  apply heap_only_bind; [done|]. intros others. done.
Qed.

Create HintDb heap_only.
Global Hint Resolve heap_only_ret heap_only_raise heap_only_new_list
  heap_only_read_list heap_only_write_list heap_only_for_each : heap_only.

Ltac heap_only_step :=
  lazymatch goal with
  | |- heap_only (mbind _ _) => apply heap_only_bind; [|intros ?]
  | |- heap_only (let '(_, _) := ?p in _) => destruct p
  | |- heap_only (match ?x with _ => _ end) => destruct x
  | |- heap_only _ => solve [eauto with heap_only]
  end.
Ltac heap_only_auto := repeat heap_only_step.

Lemma heap_only_append l v : heap_only (append l v).
Proof. unfold append. heap_only_auto. Qed.
Lemma heap_only_extend l other : heap_only (extend l other).
Proof. unfold extend. heap_only_auto. Qed.
Lemma heap_only_list_add a b : heap_only (list_add a b).
Proof. unfold list_add. heap_only_auto. Qed.
Lemma heap_only_style styles name : heap_only (style styles name).
Proof. unfold style. heap_only_auto. Qed.
Lemma heap_only_styles_add styles s : heap_only (styles_add styles s).
Proof. unfold styles_add. heap_only_auto. Qed.
Lemma heap_only_unpack4 r : heap_only (unpack4 r).
Proof. unfold unpack4. heap_only_auto. Qed.
Lemma heap_only_getitem r i : heap_only (getitem r i).
Proof. unfold getitem. heap_only_auto. Qed.
Lemma heap_only_float_of_int z : heap_only (float_of_int z).
Proof. unfold float_of_int. heap_only_auto. Qed.
Lemma heap_only_py_add a b : heap_only (py_add a b).
Proof.
  pose proof heap_only_float_of_int. unfold py_add. heap_only_auto.
Qed.
Lemma heap_only_format_comma v : heap_only (format_comma v).
Proof. unfold format_comma. heap_only_auto. Qed.
Lemma heap_only_format_fixed2 v : heap_only (format_fixed2 v).
Proof.
  pose proof heap_only_float_of_int. unfold format_fixed2. heap_only_auto.
Qed.
Lemma heap_only_as_str v : heap_only (as_str v).
Proof. unfold as_str. heap_only_auto. Qed.
Lemma heap_only_as_int v : heap_only (as_int v).
Proof. unfold as_int. heap_only_auto. Qed.
Lemma heap_only_as_flowable v : heap_only (as_flowable v).
Proof. unfold as_flowable. heap_only_auto. Qed.

Lemma heap_only_sum_from acc items : heap_only (sum_from acc items).
Proof.
  revert acc. induction items as [|v items IH]; intros acc; simpl; [done|].
  apply heap_only_bind; [apply heap_only_py_add|done].
Qed.

Lemma heap_only_as_list {A} (item : value → M A) v :
  (∀ x, heap_only (item x)) → heap_only (as_list item v).
Proof. intros Hitem. unfold as_list. heap_only_auto. Qed.

Global Hint Resolve heap_only_append heap_only_extend heap_only_list_add
  heap_only_style heap_only_styles_add heap_only_unpack4 heap_only_getitem
  heap_only_py_add heap_only_format_comma heap_only_format_fixed2
  heap_only_as_str heap_only_as_int heap_only_as_flowable heap_only_sum_from
  heap_only_as_list : heap_only.

Lemma heap_only_build_styles : heap_only build_styles.
Proof. unfold build_styles. heap_only_auto. Qed.
Lemma heap_only_cover_page styles : heap_only (cover_page styles).
Proof. unfold cover_page. heap_only_auto. Qed.
Lemma heap_only_narrative_section styles : heap_only (narrative_section styles).
Proof. unfold narrative_section. heap_only_auto. Qed.
Lemma heap_only_table_row r : heap_only (table_row r).
Proof. unfold table_row. heap_only_auto. Qed.
Lemma heap_only_sum_column i : heap_only (sum_column i).
Proof. unfold sum_column. heap_only_auto. Qed.
Global Hint Resolve heap_only_build_styles heap_only_cover_page
  heap_only_narrative_section heap_only_table_row heap_only_sum_column
  : heap_only.
Lemma heap_only_financial_table styles : heap_only (financial_table styles).
Proof. unfold financial_table, read_rows. heap_only_auto. Qed.
Lemma heap_only_revenue_chart : heap_only revenue_chart.
Proof. unfold revenue_chart, read_strings. heap_only_auto. Qed.
Global Hint Resolve heap_only_financial_table heap_only_revenue_chart
  : heap_only.
Lemma heap_only_build_pdf_elements : heap_only build_pdf_elements.
Proof. unfold build_pdf_elements. heap_only_auto. Qed.
Lemma heap_only_read_story l : heap_only (read_story l).
Proof. unfold read_story. heap_only_auto. Qed.

(** * Runs of the whole script *)

Lemma build_pdf_elements_shipped files out :
  build_pdf_elements (MkState [QUARTERLY_DATA_rows] files out)
  = Return 1%nat (MkState shipped_heap files out).
Proof. rewrite heap_only_build_pdf_elements. by vm_compute. Qed.

Lemma read_story_shipped files out :
  read_story 1 (MkState shipped_heap files out)
  = Return shipped_story (MkState shipped_heap files out).
Proof. rewrite heap_only_read_story. by vm_compute. Qed.

(** From here on the story and the store of the shipped script are used
    as they stand. *)
Global Opaque shipped_story shipped_heap.

Lemma OUTPUT_PDF_ne_DIR dir : OUTPUT_PDF dir ≠ OUTPUT_DIR dir.
Proof. intros H. apply (f_equal length) in H. simpl in H. lia. Qed.

(** [build_pdf] after the module level: it fails where the write fails,
    and otherwise leaves the rendered story in the file and two lines on
    the output. *)
Lemma build_pdf_shipped dir files out :
  run (build_pdf dir) (MkState [QUARTERLY_DATA_rows] files out)
  = match write_file (OUTPUT_PDF dir)
            (Rendered (doc_template dir) shipped_story)
            (MkState shipped_heap files out) with
    | Return _ _ =>
        Return () (MkState shipped_heap
          (<[OUTPUT_PDF dir := File (Rendered (doc_template dir) shipped_story)]>
             files)
          (out ++ report dir))
    | Raise e σ => Raise e σ
    end.
Proof.
  unfold run, build_pdf, doc_build. cbv zeta. unfold mbind, M_bind.
  rewrite build_pdf_elements_shipped, read_story_shipped.
  change (filename _) with (OUTPUT_PDF dir).
  change (MkDoc _ _ _ _ _ _) with (doc_template dir).
  unfold write_file, OUTPUT_PDF at 1 2. simpl.
  destruct (files !! OUTPUT_DIR dir) as [[]|]; try done.
  destruct (files !! OUTPUT_PDF dir) as [[]|] eqn:Hpdf; try done;
    unfold stat, print, lookup_node, set_fs, set_stdout, OUTPUT_PDF at 1; simpl;
    fold (OUTPUT_PDF dir); rewrite lookup_insert_eq; simpl;
    by rewrite <-app_assoc.
Qed.

(** The file system operations leave the store and the output alone. *)
Lemma only_files_os_mkdir p : only_files (os_mkdir p).
Proof. intros σ. unfold os_mkdir. by repeat case_match. Qed.

Lemma only_files_is_dir p : only_files (is_dir p).
Proof. intros σ. unfold is_dir. by repeat case_match. Qed.

Lemma only_files_try_except {A} (m : M A) handler :
  only_files m → (∀ e, only_files (handler e)) →
  only_files (try_except m handler).
Proof.
  intros Hm Hh σ. unfold try_except. specialize (Hm σ).
  destruct (m σ) as [a σ1|e σ1]; simpl in *; [done|].
  destruct (Hh e σ1) as [-> ->]. done.
Qed.

Lemma only_files_bind {A B} (m : M A) (f : A → M B) :
  only_files m → (∀ a, only_files (f a)) → only_files (m ≫= f).
Proof.
  intros Hm Hf σ. unfold mbind, M_bind. specialize (Hm σ).
  destruct (m σ) as [a σ1|e σ1]; simpl in *; [|done].
  destruct (Hf a σ1) as [-> ->]. done.
Qed.

Lemma only_files_exist_ok_handler p e exist_ok :
  only_files (d ← is_dir p;
              if negb exist_ok || negb d then raise e else mret ()).
Proof.
  apply only_files_bind; [apply only_files_is_dir|].
  intros d σ. by destruct (negb exist_ok || negb d).
Qed.

Lemma only_files_mkdir_single p exist_ok : only_files (mkdir_single p exist_ok).
Proof.
  apply only_files_try_except; [apply only_files_os_mkdir|].
  intros e. destruct e; try apply only_files_exist_ok_handler. by intros σ.
Qed.

Lemma only_files_mkdir_parents p exist_ok :
  only_files (mkdir_parents p exist_ok).
Proof.
  revert exist_ok. induction p as [|name parent IH]; intros exist_ok;
    (apply only_files_try_except; [apply only_files_os_mkdir|]);
    intros e; destruct e; try apply only_files_exist_ok_handler;
    try by intros σ.
  apply only_files_bind; [apply IH|]. intros _. apply only_files_mkdir_single.
Qed.

(** When the module level returns, the data set is the only list object
    and nothing was printed. *)
Lemma module_level_returns dir files σ :
  run (module_level dir) (start files) = Return () σ →
  σ = shipped (fs σ).
Proof.
  unfold run, module_level, mbind, M_bind. intros Hrun.
  destruct (only_files_mkdir_parents (OUTPUT_DIR dir) true (start files))
    as [Hheap Hout].
  destruct (mkdir_parents _ _ _) as [[] [h f o]|]; [|done].
  simpl in *. subst. by injection Hrun as <-.
Qed.

Lemma mkdir_parents_unfold p exist_ok :
  mkdir_parents p exist_ok
  = try_except (os_mkdir p) (λ e,
      match e with
      | FileNotFoundError _ =>
          match p with
          | [] => raise e
          | _ :: parent => mkdir_parents parent true;; mkdir_single p exist_ok
          end
      | _ => d ← is_dir p; if negb exist_ok || negb d then raise e else mret ()
      end).
Proof. by destruct p. Qed.

(** [mkdir(parents=True, exist_ok=True)] of a directory whose parent
    exists: it is made if it is absent and left alone if it is there. *)
Lemma mkdir_parents_in_directory name parent σ :
  lookup_node (fs σ) parent = Some Dir →
  fs σ !! (name :: parent) = None ∨ fs σ !! (name :: parent) = Some Dir →
  mkdir_parents (name :: parent) true σ
  = Return () (set_fs (<[name :: parent := Dir]> (fs σ)) σ).
Proof.
  intros Hparent Hdir. rewrite mkdir_parents_unfold.
  unfold try_except, os_mkdir. rewrite Hparent.
  destruct Hdir as [Hdir|Hdir]; rewrite Hdir; [done|].
  unfold mbind, M_bind, is_dir, lookup_node. rewrite Hdir. simpl.
  rewrite insert_id by done. by destruct σ.
Qed.

(** The module level when the script's directory exists and the output
    directory is absent or a directory. *)
Lemma module_level_makes_directory dir files :
  lookup_node files dir = Some Dir →
  files !! OUTPUT_DIR dir = None ∨ files !! OUTPUT_DIR dir = Some Dir →
  run (module_level dir) (start files)
  = Return () (shipped (<[OUTPUT_DIR dir := Dir]> files)).
Proof.
  intros Hdir Hout. unfold run, module_level, mbind, M_bind, OUTPUT_DIR.
  by rewrite mkdir_parents_in_directory.
Qed.

(** * The claims of the specification *)

(** C1: for the shipped data set the annual totals are revenue 10,552 and
    net income 1,678, and the sum of the four EPS values is shown as 8.40
    at two decimals.  The float sum is one unit in the last place below
    8.4 when [sum] adds from left to right, and 8.4 itself when it
    compensates (CPython 3.12 and later); both are shown as 8.40.  The
    totals row of the table carries these three cells. *)
Theorem annual_totals (files : gmap path node) :
  let σ := shipped files in
  let total_eps := S754_finite false 4728779608739020 (-49) in
  run (sum_column 1) σ = Return (VInt 10552) σ
  ∧ run (sum_column 2) σ = Return (VInt 1678) σ
  ∧ run (sum_column 3) σ = Return (VFloat total_eps) σ
  ∧ format_2f total_eps = "8.40"
  ∧ format_2f (sum_compensated (add (of_int 0) (literal 156 2)) (S754_zero false)
                 [literal 195 2; literal 228 2; literal 261 2]) = "8.40"
  ∧ (cells ← financial_table_cells σ; list.last cells)
    = Some ["FY 2024 Total"; "10,552"; "1,678"; "8.40"].
Proof. repeat split; vm_compute; reflexivity. Qed.

(** C2: the table has exactly 6 rows, the header, one row per quarter and
    the totals row, and every numeric cell of the totals row denotes the
    sum of the cells above it in its column. *)
Theorem table_rows_and_totals (files : gmap path node) :
  let header := ["Quarter"; "Revenue ($M)"; "Net Income ($M)"; "EPS ($)"] in
  let data := [ ["Q1 2024"; "2,105"; "312"; "1.56"];
                ["Q2 2024"; "2,498"; "389"; "1.95"];
                ["Q3 2024"; "2,847"; "456"; "2.28"];
                ["Q4 2024"; "3,102"; "521"; "2.61"] ] in
  let totals := ["FY 2024 Total"; "10,552"; "1,678"; "8.40"] in
  financial_table_cells (shipped files) = Some (header :: data ++ [totals])
  ∧ length (header :: data ++ [totals]) = 6%nat
  ∧ length data = 4%nat
  ∧ (λ row, row !! 0%nat) <$> data = (λ q, Some (quarter q)) <$> quarters
  ∧ cell_value thousands_value 1 totals = column_sum thousands_value 1 data
  ∧ cell_value thousands_value 2 totals = column_sum thousands_value 2 data
  ∧ cell_value hundredths_value 3 totals = column_sum hundredths_value 3 data
  ∧ column_sum thousands_value 1 data = Some 10552
  ∧ column_sum thousands_value 2 data = Some 1678
  ∧ column_sum hundredths_value 3 data = Some 840.
Proof. repeat split; vm_compute; reflexivity. Qed.

(** C3: the value axis of the chart runs from 0 to 3500 in steps of 500;
    the chart has exactly 4 bars, the revenues of the quarters in the order
    of the data set, named by the quarter labels; every bar is labelled
    with its revenue printed as an integer. *)
Theorem chart_axis_bars_labels (files : gmap path node) :
  ∃ chart,
    revenue_chart_chart (shipped files) = Some chart
    ∧ valueMin chart = 0 ∧ valueMax chart = 3500 ∧ valueStep chart = 500
    ∧ axis_ticks chart = [0; 500; 1000; 1500; 2000; 2500; 3000; 3500]
    ∧ chart_data chart = [revenue <$> quarters]
    ∧ length (concat (chart_data chart)) = 4%nat
    ∧ categoryNames chart = quarter <$> quarters
    ∧ bar_labels chart = [(λ q, Some (str_int (revenue q))) <$> quarters]
    ∧ bar_labels chart = [[Some "2105"; Some "2498"; Some "2847"; Some "3102"]].
Proof. eexists. repeat split; vm_compute; reflexivity. Qed.

(** C4: the story has exactly one page break; the cover content comes
    before it and the first fragment of the narrative right after it. *)
Theorem one_page_break_after_cover (files : gmap path node) :
  ∃ cover narrative rest,
    flowables (with_styles cover_page) (shipped files)
      = Some (cover ++ [PageBreak])
    ∧ flowables (with_styles narrative_section) (shipped files) = Some narrative
    ∧ story (shipped files) = Some (cover ++ [PageBreak] ++ narrative ++ rest)
    ∧ narrative ≠ []
    ∧ length (filter (λ f, Is_true (is_page_break f))
                     (cover ++ [PageBreak] ++ narrative ++ rest)) = 1%nat
    ∧ forallb (λ f, negb (is_page_break f)) (cover ++ narrative ++ rest) = true.
Proof.
  pose (whole := default [] (story (shipped ∅))).
  exists (take 5 whole), (take 5 (drop 6 whole)), (drop 11 whole).
  repeat split; try (vm_compute; reflexivity). by vm_compute.
Qed.

(** C5: the story is the cover block, then the narrative block, then the
    table block, then the chart block, whatever the file system holds.
    Title, subtitle, publication line and page break make the cover; three
    body paragraphs the narrative; the table and its caption the table
    block; the drawing (chart, then the title over it) and its caption the
    chart block.  Spacers and section headings stand between them. *)
Theorem blocks_in_fixed_order (files : gmap path node) :
  ∃ cover narrative table chart,
    flowables (with_styles cover_page) (shipped files) = Some cover
    ∧ flowables (with_styles narrative_section) (shipped files) = Some narrative
    ∧ flowables (with_styles financial_table) (shipped files) = Some table
    ∧ story (shipped files) = Some (cover ++ narrative ++ table ++ chart)
    ∧ fragment_of <$> cover
      = [ SpacerFragment; ParagraphFragment "CoverTitle";
          ParagraphFragment "CoverSubtitle"; SpacerFragment;
          ParagraphFragment "CoverSubtitle"; PageBreakFragment ]
    ∧ fragment_of <$> narrative
      = [ ParagraphFragment "SectionHead"; ParagraphFragment "BodyJustified";
          ParagraphFragment "BodyJustified"; ParagraphFragment "BodyJustified";
          SpacerFragment ]
    ∧ fragment_of <$> table
      = [ ParagraphFragment "SectionHead"; TableFragment;
          ParagraphFragment "TableCaption" ]
    ∧ fragment_of <$> chart
      = [ SpacerFragment; ParagraphFragment "SectionHead";
          DrawingFragment [ChartKind; StringKind];
          ParagraphFragment "TableCaption" ]
    ∧ List.filter is_content (fragment_of <$> (cover ++ narrative ++ table ++ chart))
      = [ ParagraphFragment "CoverTitle"; ParagraphFragment "CoverSubtitle";
          ParagraphFragment "CoverSubtitle"; PageBreakFragment;
          ParagraphFragment "BodyJustified"; ParagraphFragment "BodyJustified";
          ParagraphFragment "BodyJustified";
          TableFragment; ParagraphFragment "TableCaption";
          DrawingFragment [ChartKind; StringKind];
          ParagraphFragment "TableCaption" ].
Proof.
  pose (whole := default [] (story (shipped ∅))).
  exists (take 6 whole), (take 5 (drop 6 whole)), (take 3 (drop 11 whole)),
    (drop 14 whole).
  repeat split; vm_compute; reflexivity.
Qed.

(** C7: every data row of the table shows the revenue and the net income
    of its quarter as thousands-separated integers (groups of three
    digits, no leading zero, denoting the record's value) and the EPS as
    a two-decimal value (the record's float to the nearest hundredth),
    and so does the totals row for the three column sums, whether the
    EPS sum is taken from left to right or with compensation. *)
Theorem table_cells_formatted (files : gmap path node) :
  let data := [ ["Q1 2024"; "2,105"; "312"; "1.56"];
                ["Q2 2024"; "2,498"; "389"; "1.95"];
                ["Q3 2024"; "2,847"; "456"; "2.28"];
                ["Q4 2024"; "3,102"; "521"; "2.61"] ] in
  let totals := ["FY 2024 Total"; "10,552"; "1,678"; "8.40"] in
  QUARTERLY_DATA_rows = tuple_of <$> quarters
  ∧ financial_table_cells (shipped files)
    = Some (table_header :: data ++ [totals])
  ∧ Forall2 (λ q row, ∃ r n e,
               row = [quarter q; r; n; e]
               ∧ shows_thousands (revenue q) r = true
               ∧ shows_thousands (net_income q) n = true
               ∧ shows_two_decimals (eps q) e = true) quarters data
  ∧ (∃ r n e total_eps,
       totals = ["FY 2024 Total"; r; n; e]
       ∧ run (sum_column 1) (shipped files)
         = Return (VInt (total (revenue <$> quarters))) (shipped files)
       ∧ shows_thousands (total (revenue <$> quarters)) r = true
       ∧ run (sum_column 2) (shipped files)
         = Return (VInt (total (net_income <$> quarters))) (shipped files)
       ∧ shows_thousands (total (net_income <$> quarters)) n = true
       ∧ run (sum_column 3) (shipped files)
         = Return (VFloat total_eps) (shipped files)
       ∧ shows_two_decimals total_eps e = true
       ∧ shows_two_decimals
           (sum_compensated (add (of_int 0) (literal 156 2)) (S754_zero false)
              [literal 195 2; literal 228 2; literal 261 2]) e = true).
Proof.
  intros data totals. split; [reflexivity|].
  split; [vm_compute; reflexivity|]. split.
  - repeat constructor; eexists _, _, _; repeat split; vm_compute; reflexivity.
  - eexists _, _, _, _. repeat split; vm_compute; reflexivity.
Qed.

(** C6: the content assembly is deterministic.  The story depends on the
    store alone: two runs from the same store give the same story,
    whatever the file system and the output hold.  Two runs of the script
    that return leave the same rendered story in the document file, the
    same store and the same output. *)
Theorem content_is_deterministic (dir : path)
    (files1 files2 : gmap path node) (σ1 σ2 : State) :
  run (main dir) (start files1) = Return () σ1 →
  run (main dir) (start files2) = Return () σ2 →
  (∀ h out1 out2,
     story (MkState h files1 out1) = story (MkState h files2 out2))
  ∧ story (shipped files1) = Some shipped_story
  ∧ fs σ1 !! OUTPUT_PDF dir
    = Some (File (Rendered (doc_template dir) shipped_story))
  ∧ fs σ1 !! OUTPUT_PDF dir = fs σ2 !! OUTPUT_PDF dir
  ∧ heap σ1 = heap σ2
  ∧ stdout σ1 = stdout σ2.
Proof.
  intros Hrun1 Hrun2.
  assert (∀ files σ, run (main dir) (start files) = Return () σ →
    fs σ !! OUTPUT_PDF dir
      = Some (File (Rendered (doc_template dir) shipped_story))
    ∧ heap σ = shipped_heap ∧ stdout σ = report dir) as Hmain.
  { intros files σ Hrun. unfold run, main, mbind, M_bind in Hrun.
    destruct (module_level dir (start files)) as [[] σ0|] eqn:Hmod; [|done].
    apply module_level_returns in Hmod. rewrite Hmod in Hrun.
    pose proof (build_pdf_shipped dir (fs σ0) []) as Hbuild.
    unfold run, shipped, imported in *. rewrite Hbuild in Hrun.
    destruct (write_file _ _ _); [|discriminate Hrun].
    injection Hrun as <-. simpl. rewrite lookup_insert_eq. by repeat split. }
  destruct (Hmain _ _ Hrun1) as (Hf1 & Hh1 & Ho1).
  destruct (Hmain _ _ Hrun2) as (Hf2 & Hh2 & Ho2).
  split; [|split; [|rewrite Hf1, Hf2, Hh1, Hh2, Ho1, Ho2; by repeat split]].
  - intros h out1 out2. unfold story, flowables_of, run.
    assert (heap_only (elements ← build_pdf_elements; read_story elements))
      as Hpure.
    { apply heap_only_bind; [apply heap_only_build_pdf_elements|].
      intros l. apply heap_only_read_story. }
    rewrite (Hpure h files1 out1), (Hpure h files2 out2).
    by destruct ((build_pdf_elements ≫= λ elements, read_story elements)
                   (MkState h ∅ [])).
  - unfold story, shipped, imported, flowables_of, run, mbind, M_bind.
    by rewrite build_pdf_elements_shipped, read_story_shipped.
Qed.

(** C8: when the script's directory exists and the output directory is
    absent, the module level makes it, without an exception, before
    [build_pdf] writes the document; when the directory and the document
    are there already, the document is replaced, without an exception.
    The file system of the model has no permissions: a directory that
    exists can be written to. *)
Theorem output_directory_and_overwrite (dir : path) (files : gmap path node) :
  lookup_node files dir = Some Dir →
  files !! OUTPUT_DIR dir = None ∨ files !! OUTPUT_DIR dir = Some Dir →
  files !! OUTPUT_PDF dir = None
  ∨ (∃ old, files !! OUTPUT_PDF dir = Some (File old)) →
  let made := <[OUTPUT_DIR dir := Dir]> files in
  let document := File (Rendered (doc_template dir) shipped_story) in
  let written := <[OUTPUT_PDF dir := document]> made in
  run (module_level dir) (start files) = Return () (shipped made)
  ∧ made !! OUTPUT_DIR dir = Some Dir
  ∧ run (build_pdf dir) (shipped made)
    = Return () (MkState shipped_heap written (report dir))
  ∧ run (main dir) (start files)
    = Return () (MkState shipped_heap written (report dir))
  ∧ written !! OUTPUT_DIR dir = Some Dir
  ∧ written !! OUTPUT_PDF dir = Some document
  ∧ (∀ p, p ≠ OUTPUT_DIR dir → p ≠ OUTPUT_PDF dir → written !! p = files !! p).
Proof.
  intros Hdir Hout Hpdf made document written.
  pose proof (OUTPUT_PDF_ne_DIR dir) as Hne.
  assert (run (build_pdf dir) (shipped made)
          = Return () (MkState shipped_heap written (report dir))) as Hbuild.
  { unfold shipped, imported. rewrite build_pdf_shipped.
    unfold write_file, OUTPUT_PDF at 1 2, lookup_node, OUTPUT_DIR at 1.
    fold (OUTPUT_DIR dir). fold (OUTPUT_PDF dir). unfold made at 1 2. simpl.
    rewrite lookup_insert_eq, lookup_insert_ne by done.
    by destruct Hpdf as [->|[old ->]]. }
  assert (run (module_level dir) (start files) = Return () (shipped made))
    as Hmod by by apply module_level_makes_directory.
  split; [done|]. split; [apply lookup_insert_eq|]. split; [done|].
  split. { unfold run, main, mbind, M_bind in *. by rewrite Hmod. }
  split. { unfold written, made. by rewrite lookup_insert_ne, lookup_insert_eq. }
  split; [apply lookup_insert_eq|].
  intros p Hp1 Hp2. unfold written, made. by rewrite !lookup_insert_ne.
Qed.

(** Every routine leaves the list objects that exist when it starts as
    they are, whether it returns or raises. *)
Lemma routines_keep_the_store (styles : StyleSheet) (dir : path)
    (σ : State) (l : loc) (d : list value) :
  heap σ !! l = Some d →
  heap (final_state (run (cover_page styles) σ)) !! l = Some d
  ∧ heap (final_state (run (narrative_section styles) σ)) !! l = Some d
  ∧ heap (final_state (run (financial_table styles) σ)) !! l = Some d
  ∧ heap (final_state (run revenue_chart σ)) !! l = Some d
  ∧ heap (final_state (run build_pdf_elements σ)) !! l = Some d
  ∧ heap (final_state (run (build_pdf dir) σ)) !! l = Some d.
Proof.
  intros Hl.
  assert (∀ A (m : M A) Q, (∀ n, safe n m (Q n)) →
            heap (final_state (run m σ)) !! l = Some d) as Hframe.
  { intros A m Q Hm. destruct (safe_frame m Q σ l Hm) as [->|Hnone]; [done|].
    by rewrite Hnone in Hl. }
  repeat split.
  - apply (Hframe _ _ fresh); intros n; apply safe_cover_page.
  - apply (Hframe _ _ fresh); intros n; apply safe_narrative_section.
  - apply (Hframe _ _ fresh); intros n; apply safe_financial_table.
  - apply (Hframe _ _ (λ _, any)); intros n; apply safe_revenue_chart.
  - apply (Hframe _ _ fresh); intros n; apply safe_build_pdf_elements.
  - apply (Hframe _ _ (λ _, any)); intros n; apply safe_build_pdf.
Qed.

(** C9: the data set is never mutated.  Once the module level has bound
    [QUARTERLY_DATA] to its four records, the list holds the same four
    records after each content-building routine, after the assembly of the
    story, after [build_pdf] and at the end of the run, whether these
    return or raise. *)
Theorem dataset_never_mutated (dir : path) (files : gmap path node)
    (styles : StyleSheet) (σ : State) :
  run (module_level dir) (start files) = Return () σ →
  dataset σ = Some QUARTERLY_DATA_rows
  ∧ length QUARTERLY_DATA_rows = 4%nat
  ∧ dataset (final_state (run (cover_page styles) σ)) = Some QUARTERLY_DATA_rows
  ∧ dataset (final_state (run (narrative_section styles) σ))
    = Some QUARTERLY_DATA_rows
  ∧ dataset (final_state (run (financial_table styles) σ))
    = Some QUARTERLY_DATA_rows
  ∧ dataset (final_state (run revenue_chart σ)) = Some QUARTERLY_DATA_rows
  ∧ dataset (final_state (run build_pdf_elements σ)) = Some QUARTERLY_DATA_rows
  ∧ dataset (final_state (run (build_pdf dir) σ)) = Some QUARTERLY_DATA_rows
  ∧ dataset (final_state (run (main dir) (start files)))
    = Some QUARTERLY_DATA_rows.
Proof.
  intros Hmod.
  assert (dataset σ = Some QUARTERLY_DATA_rows) as Hdata.
  { apply module_level_returns in Hmod. by rewrite Hmod. }
  destruct (routines_keep_the_store styles dir σ QUARTERLY_DATA _ Hdata)
    as (? & ? & ? & ? & ? & Hbuild).
  repeat split; try done.
  unfold run, main, mbind, M_bind in *. by rewrite Hmod.
Qed.

(** * The theorems at work: a fresh checkout and a second run *)

Lemma content_is_deterministic_witness :
  let σ1 := final_state (run (main checkout_dir) (start fresh_checkout)) in
  let σ2 := final_state (run (main checkout_dir) (start earlier_run)) in
  run (main checkout_dir) (start fresh_checkout) = Return () σ1
  ∧ run (main checkout_dir) (start earlier_run) = Return () σ2
  ∧ fs σ1 !! OUTPUT_PDF checkout_dir = fs σ2 !! OUTPUT_PDF checkout_dir
  ∧ heap σ1 = heap σ2
  ∧ stdout σ1 = stdout σ2.
Proof.
  intros σ1 σ2.
  assert (run (main checkout_dir) (start fresh_checkout) = Return () σ1) as H1
    by (vm_compute; reflexivity).
  assert (run (main checkout_dir) (start earlier_run) = Return () σ2) as H2
    by (vm_compute; reflexivity).
  split; [exact H1|]. split; [exact H2|].
  apply (content_is_deterministic checkout_dir fresh_checkout earlier_run
           σ1 σ2 H1 H2).
Defined.

Lemma output_directory_and_overwrite_witness :
  (fresh_checkout !! OUTPUT_DIR checkout_dir = None
   ∧ ∃ σ, run (main checkout_dir) (start fresh_checkout) = Return () σ
          ∧ fs σ !! OUTPUT_DIR checkout_dir = Some Dir
          ∧ fs σ !! OUTPUT_PDF checkout_dir
            = Some (File (Rendered (doc_template checkout_dir) shipped_story)))
  ∧ (earlier_run !! OUTPUT_PDF checkout_dir
       = Some (File (Bytes "%PDF-1.4 earlier"))
     ∧ ∃ σ, run (main checkout_dir) (start earlier_run) = Return () σ
            ∧ fs σ !! OUTPUT_PDF checkout_dir
              = Some (File (Rendered (doc_template checkout_dir) shipped_story))).
Proof.
  split.
  - split; [vm_compute; reflexivity|].
    destruct (output_directory_and_overwrite checkout_dir fresh_checkout)
      as (_ & _ & _ & Hmain & Hdir & Hpdf & _).
    + vm_compute; reflexivity.
    + left. vm_compute; reflexivity.
    + left. vm_compute; reflexivity.
    + eexists. split; [exact Hmain|]. split; [exact Hdir|exact Hpdf].
  - split; [vm_compute; reflexivity|].
    destruct (output_directory_and_overwrite checkout_dir earlier_run)
      as (_ & _ & _ & Hmain & _ & Hpdf & _).
    + vm_compute; reflexivity.
    + right. vm_compute; reflexivity.
    + right. eexists. vm_compute; reflexivity.
    + eexists. split; [exact Hmain|exact Hpdf].
Defined.

Lemma dataset_never_mutated_witness :
  let σ := shipped (<[OUTPUT_DIR checkout_dir := Dir]> fresh_checkout) in
  run (module_level checkout_dir) (start fresh_checkout) = Return () σ
  ∧ dataset (final_state (run (financial_table script_styles) σ))
    = Some QUARTERLY_DATA_rows
  ∧ dataset (final_state (run (main checkout_dir) (start fresh_checkout)))
    = Some QUARTERLY_DATA_rows.
Proof.
  intros σ.
  assert (run (module_level checkout_dir) (start fresh_checkout) = Return () σ)
    as Hmod by (vm_compute; reflexivity).
  split; [exact Hmod|].
  destruct (dataset_never_mutated checkout_dir fresh_checkout
              script_styles σ Hmod)
    as (_ & _ & _ & _ & Htable & _ & _ & _ & Hmain).
  split; [exact Htable|exact Hmain].
Defined.


(** * Runs on any well-typed data set *)

Lemma for_each_cons {A} (body : value → M A) v rest :
  for_each body (v :: rest)
  = a ← body v; others ← for_each body rest; mret (a :: others).
Proof. done. Qed.

Lemma bind_run {A B} (m : M A) (f : A → M B) σ :
  (m ≫= f) σ = match m σ with
               | Return a σ' => f a σ'
               | Raise e σ' => Raise e σ'
               end.
Proof. done. Qed.

Lemma for_each_getitem (qs : list Quarter) (i : nat) (field : Quarter → value) σ :
  (∀ q, getitem (tuple_of q) i = mret (field q)) →
  for_each (λ r, getitem r i) (tuple_of <$> qs) σ = Return (field <$> qs) σ.
Proof.
  intros Hfield. induction qs as [|q qs IH]; [done|].
  rewrite fmap_cons, for_each_cons, bind_run, Hfield. simpl.
  by rewrite bind_run, IH.
Qed.

Lemma sum_from_ints (a : Z) (zs : list Z) σ :
  sum_from (VInt a) (VInt <$> zs) σ = Return (VInt (a + total zs)) σ.
Proof.
  revert a. induction zs as [|z zs IH]; intros a; simpl.
  - by rewrite Z.add_0_r.
  - unfold mbind, M_bind. simpl. rewrite IH. do 2 f_equal. unfold total. simpl. lia.
Qed.

Lemma sum_from_floats (a : float64) (xs : list float64) σ :
  sum_from (VFloat a) (VFloat <$> xs) σ = Return (VFloat (foldl add a xs)) σ.
Proof.
  revert a. induction xs as [|x xs IH]; intros a; simpl; [done|].
  unfold mbind, M_bind. simpl. by rewrite IH.
Qed.

Lemma float_of_int_0 σ : float_of_int 0 σ = Return (of_int 0) σ.
Proof. vm_compute. reflexivity. Qed.

Lemma py_sum_floats (xs : list float64) σ :
  py_sum (VFloat <$> xs) σ = Return (float_total xs) σ.
Proof.
  destruct xs as [|x xs]; [done|]. unfold py_sum.
  cbn [fmap list_fmap sum_from py_add].
  rewrite !bind_run, float_of_int_0. cbn [mret M_ret float_total].
  by rewrite sum_from_floats.
Qed.

Lemma format_comma_fits (n : Z) σ :
  fits_str n = true → format_comma (VInt n) σ = Return (format_thousands n) σ.
Proof. intros Hn. unfold format_comma. by rewrite Hn. Qed.

Lemma format_comma_beyond (n : Z) σ :
  fits_str n = false → format_comma (VInt n) σ = Raise ValueError σ.
Proof. intros Hn. unfold format_comma. by rewrite Hn. Qed.

Lemma within_str_limit_unfold (qs : list Quarter) :
  within_str_limit qs = true →
  Forall (λ q, fits_str (revenue q) = true ∧ fits_str (net_income q) = true) qs
  ∧ fits_str (total (revenue <$> qs)) = true
  ∧ fits_str (total (net_income <$> qs)) = true.
Proof.
  unfold within_str_limit, grouped_numbers. intros H.
  apply Is_true_true, forallb_True in H.
  rewrite !Forall_app, !Forall_fmap in H. destruct H as (Hr & Hn & Ht).
  inversion_clear Ht as [|?? Htr Ht']. inversion_clear Ht' as [|?? Htn _].
  split; [|split; by apply Is_true_true].
  rewrite Forall_forall in Hr, Hn. apply Forall_forall. intros q Hq.
  split; apply Is_true_true; [by apply Hr|by apply Hn].
Qed.

Lemma sum_column_revenue (qs : list Quarter) rest files out :
  sum_column 1 (MkState ((tuple_of <$> qs) :: rest) files out)
  = Return (VInt (total (revenue <$> qs)))
      (MkState ((tuple_of <$> qs) :: rest) files out).
Proof.
  unfold sum_column, mbind, M_bind, read_list. simpl.
  rewrite (for_each_getitem qs 1 (λ q, VInt (revenue q))) by done.
  change (λ q, VInt (revenue q)) with (VInt ∘ revenue).
  unfold py_sum. by rewrite list_fmap_compose, sum_from_ints.
Qed.

Lemma sum_column_net_income (qs : list Quarter) rest files out :
  sum_column 2 (MkState ((tuple_of <$> qs) :: rest) files out)
  = Return (VInt (total (net_income <$> qs)))
      (MkState ((tuple_of <$> qs) :: rest) files out).
Proof.
  unfold sum_column, mbind, M_bind, read_list. simpl.
  rewrite (for_each_getitem qs 2 (λ q, VInt (net_income q))) by done.
  change (λ q, VInt (net_income q)) with (VInt ∘ net_income).
  unfold py_sum. by rewrite list_fmap_compose, sum_from_ints.
Qed.

Lemma sum_column_eps (qs : list Quarter) rest files out :
  sum_column 3 (MkState ((tuple_of <$> qs) :: rest) files out)
  = Return (float_total (eps <$> qs))
      (MkState ((tuple_of <$> qs) :: rest) files out).
Proof.
  unfold sum_column, mbind, M_bind, read_list. simpl.
  rewrite (for_each_getitem qs 3 (λ q, VFloat (eps q))) by done.
  change (λ q, VFloat (eps q)) with (VFloat ∘ eps).
  by rewrite list_fmap_compose, py_sum_floats.
Qed.

Lemma table_row_run (q : Quarter) h files out :
  fits_str (revenue q) = true → fits_str (net_income q) = true →
  table_row (tuple_of q) (MkState h files out)
  = Return (VRef (length h)) (MkState (h ++ [VStr <$> row_of q]) files out).
Proof.
  intros Hr Hn. unfold table_row, tuple_of, mbind, M_bind, format_comma.
  cbn [unpack4 mret M_ret]. rewrite Hr, Hn. reflexivity.
Qed.

Lemma for_each_table_row (qs : list Quarter) h files out :
  Forall (λ q, fits_str (revenue q) = true ∧ fits_str (net_income q) = true) qs →
  for_each table_row (tuple_of <$> qs) (MkState h files out)
  = Return (VRef <$> seq (length h) (length qs))
      (MkState (h ++ ((λ q, VStr <$> row_of q) <$> qs)) files out).
Proof.
  intros Hqs. revert h. induction Hqs as [|q qs [Hr Hn] _ IH]; intros h.
  - simpl. by rewrite app_nil_r.
  - rewrite fmap_cons, for_each_cons, bind_run, table_row_run, bind_run, IH
      by done.
    simpl. rewrite length_app. simpl. by rewrite Nat.add_1_r, <-app_assoc.
Qed.

Lemma for_each_as_str (strs : list string) σ :
  for_each as_str (VStr <$> strs) σ = Return strs σ.
Proof.
  induction strs as [|s strs IH]; [done|].
  rewrite fmap_cons, for_each_cons, bind_run. cbn [as_str mret M_ret].
  by rewrite bind_run, IH.
Qed.

(** Reading back a run of consecutive row lists. *)
Lemma for_each_read_rows (rows : list (list string)) pre post files out :
  for_each (as_list as_str) (VRef <$> seq (length pre) (length rows))
    (MkState (pre ++ ((λ row : list string, VStr <$> row) <$> rows) ++ post) files out)
  = Return rows (MkState (pre ++ ((λ row : list string, VStr <$> row) <$> rows) ++ post) files out).
Proof.
  revert pre. induction rows as [|row rows IH]; intros pre; [done|].
  cbn [length seq fmap list_fmap]. rewrite for_each_cons, bind_run.
  unfold as_list at 1. rewrite bind_run. unfold read_list at 1.
  cbn [heap app]. rewrite list_lookup_middle by done.
  rewrite for_each_as_str.
  specialize (IH (pre ++ [VStr <$> row])).
  rewrite length_app, Nat.add_1_r, <-app_assoc in IH. cbn [app] in IH.
  by rewrite bind_run, IH.
Qed.

Lemma build_styles_run σ : build_styles σ = Return script_styles σ.
Proof. vm_compute. reflexivity. Qed.

Lemma style_run name σ :
  is_Some (script_styles !! name) →
  style script_styles name σ = Return (the_style name) σ.
Proof. intros [s H]. unfold style, the_style. by rewrite H. Qed.

Lemma style_CoverTitle σ :
  style script_styles "CoverTitle" σ = Return (the_style "CoverTitle") σ.
Proof. apply style_run. vm_compute. eexists. reflexivity. Qed.
Lemma style_CoverSubtitle σ :
  style script_styles "CoverSubtitle" σ = Return (the_style "CoverSubtitle") σ.
Proof. apply style_run. vm_compute. eexists. reflexivity. Qed.
Lemma style_BodyJustified σ :
  style script_styles "BodyJustified" σ = Return (the_style "BodyJustified") σ.
Proof. apply style_run. vm_compute. eexists. reflexivity. Qed.
Lemma style_SectionHead σ :
  style script_styles "SectionHead" σ = Return (the_style "SectionHead") σ.
Proof. apply style_run. vm_compute. eexists. reflexivity. Qed.
Lemma style_TableCaption σ :
  style script_styles "TableCaption" σ = Return (the_style "TableCaption") σ.
Proof. apply style_run. vm_compute. eexists. reflexivity. Qed.

Lemma format_fixed2_total xs σ :
  format_fixed2 (float_total xs) σ = Return (format_total (float_total xs)) σ.
Proof.
  destruct xs; [|done]. cbn [float_total format_fixed2 format_total].
  by rewrite bind_run, float_of_int_0.
Qed.

Lemma read_list_lookup l h files out items :
  h !! l = Some items →
  read_list l (MkState h files out) = Return items (MkState h files out).
Proof. intros H. unfold read_list. simpl. by rewrite H. Qed.

Lemma lookup_app_at {A} (l1 l2 : list A) (k : nat) :
  (l1 ++ l2) !! (length l1 + k)%nat = l2 !! k.
Proof. rewrite lookup_app_r by lia. f_equal. lia. Qed.

Lemma lookup_app_at_0 {A} (l1 l2 : list A) :
  (l1 ++ l2) !! length l1 = l2 !! 0%nat.
Proof. by rewrite <-(lookup_app_at l1 l2 0), Nat.add_0_r. Qed.

Lemma lookup_app_at_1 {A} (l1 l2 : list A) :
  (l1 ++ l2) !! S (length l1) = l2 !! 1%nat.
Proof. by rewrite <-(lookup_app_at l1 l2 1), Nat.add_1_r. Qed.

Lemma insert_app_at_0 {A} (l1 l2 : list A) (x : A) :
  <[length l1 := x]> (l1 ++ l2) = l1 ++ <[0%nat := x]> l2.
Proof. by rewrite <-(insert_app_r l1 l2 0), Nat.add_0_r. Qed.

Lemma lookup_cons_0 {A} (a : A) (l : list A) : (a :: l) !! 0%nat = Some a.
Proof. done. Qed.
Lemma lookup_cons_S {A} (a : A) (l : list A) (k : nat) :
  (a :: l) !! S k = l !! k.
Proof. done. Qed.
Lemma insert_cons_0 {A} (a x : A) (l : list A) : <[0%nat := x]> (a :: l) = x :: l.
Proof. done. Qed.
Lemma insert_cons_S {A} (a x : A) (l : list A) (k : nat) :
  <[S k := x]> (a :: l) = a :: <[k := x]> l.
Proof. done. Qed.

Lemma for_each_app {A} (body : value → M A) l1 l2 σ :
  for_each body (l1 ++ l2) σ
  = match for_each body l1 σ with
    | Return a σ' =>
        match for_each body l2 σ' with
        | Return b σ'' => Return (a ++ b) σ''
        | Raise e σ'' => Raise e σ''
        end
    | Raise e σ' => Raise e σ'
    end.
Proof.
  revert σ. induction l1 as [|v l1 IH]; intros σ.
  - simpl. by destruct (for_each body l2 σ).
  - cbn [app]. rewrite !for_each_cons, !bind_run.
    destruct (body v σ) as [a σ1|]; [|reflexivity].
    rewrite !bind_run, IH.
    destruct (for_each body l1 σ1) as [b σ2|]; [|reflexivity].
    unfold mret, M_ret. cbv beta iota.
    destruct (for_each body l2 σ2); reflexivity.
Qed.

Lemma as_list_as_str_run l h files out strs :
  h !! l = Some (VStr <$> strs) →
  as_list as_str (VRef l) (MkState h files out)
  = Return strs (MkState h files out).
Proof.
  intros Hl. unfold as_list. rewrite bind_run, (read_list_lookup _ _ _ _ _ Hl).
  apply for_each_as_str.
Qed.

Lemma read_data_rows X rows a b c post files out n :
  X = (λ row : list string, VStr <$> row) <$> rows → n = length rows →
  for_each (as_list as_str) (VRef <$> seq 3 n)
    (MkState (a :: b :: c :: X ++ post) files out)
  = Return rows (MkState (a :: b :: c :: X ++ post) files out).
Proof. intros -> ->. exact (for_each_read_rows rows [a; b; c] post files out). Qed.

Ltac run_to_stuck :=
  repeat progress
    (unfold append, extend, list_add, read_rows, read_story, set_heap,
       new_list, read_list, write_list, mbind, M_bind, mret, M_ret;
     cbn [heap fs stdout length app for_each as_str as_int Nat.add
          flowables_of as_list as_flowable QUARTERLY_DATA];
     rewrite ?style_CoverTitle, ?style_CoverSubtitle, ?style_BodyJustified,
       ?style_SectionHead, ?style_TableCaption,
       ?lookup_cons_S, ?lookup_cons_0, ?insert_cons_S, ?insert_cons_0,
       ?lookup_app_at_0, ?lookup_app_at, ?insert_app_at_0, <-?app_assoc,
       ?length_app).

Lemma for_each_read_rows_at k h pre X rows post files out n :
  h = pre ++ X ++ post → k = length pre →
  X = (λ row : list string, VStr <$> row) <$> rows → n = length rows →
  for_each (as_list as_str) (VRef <$> seq k n) (MkState h files out)
  = Return rows (MkState h files out).
Proof. intros -> -> -> ->. apply for_each_read_rows. Qed.

Lemma for_each_as_int (zs : list Z) σ :
  for_each as_int (VInt <$> zs) σ = Return zs σ.
Proof.
  induction zs as [|z zs IH]; [done|].
  rewrite fmap_cons, for_each_cons, bind_run. cbn [as_int mret M_ret].
  by rewrite bind_run, IH.
Qed.

Lemma for_each_as_int_fmap {B} (f : B → Z) (l : list B) σ :
  for_each as_int ((λ x, VInt (f x)) <$> l) σ = Return (f <$> l) σ.
Proof.
  induction l as [|x l IH]; [done|].
  rewrite fmap_cons, for_each_cons, bind_run. cbn [as_int mret M_ret].
  by rewrite bind_run, IH.
Qed.

Lemma for_each_as_str_fmap {B} (f : B → string) (l : list B) σ :
  for_each as_str ((λ x, VStr (f x)) <$> l) σ = Return (f <$> l) σ.
Proof.
  induction l as [|x l IH]; [done|].
  rewrite fmap_cons, for_each_cons, bind_run. cbn [as_str mret M_ret].
  by rewrite bind_run, IH.
Qed.

(** The texts of the paragraphs play no part in a run. *)
Ltac hide_texts :=
  repeat match goal with
         | |- context [Paragraph ?t] =>
             assert_fails (is_var t); let p := fresh "text" in set (p := t)
         | |- context [StringShape _ _ ?t] =>
             assert_fails (is_var t); let p := fresh "text" in set (p := t)
         end.
Ltac show_texts := repeat match goal with p := _ |- _ => subst p end.

Lemma build_pdf_elements_run (qs : list Quarter) files out :
  within_str_limit qs = true →
  story (MkState [tuple_of <$> qs] files out) = Some (story_for qs).
Proof.
  intros Hfits. apply within_str_limit_unfold in Hfits as (Hrows & Hrev & Hni).
  unfold story, run, flowables_of, build_pdf_elements.
  rewrite bind_run, bind_run, build_styles_run.
  unfold cover_page, narrative_section, financial_table, revenue_chart,
    read_strings.
  hide_texts. run_to_stuck.
  rewrite for_each_table_row by done. run_to_stuck.
  rewrite sum_column_revenue. run_to_stuck.
  rewrite sum_column_net_income. run_to_stuck.
  rewrite sum_column_eps. run_to_stuck.
  rewrite (format_comma_fits _ _ Hrev). run_to_stuck.
  rewrite (format_comma_fits _ _ Hni). run_to_stuck.
  rewrite format_fixed2_total. run_to_stuck.
  rewrite for_each_app.
  match goal with
  | |- context [for_each (as_list as_str) (VRef <$> seq _ _)
                  (MkState (?a :: ?b :: ?c :: ?d :: ?e :: ?f :: ?X ++ ?post) _ _)] =>
      erewrite (for_each_read_rows_at _ _ [a; b; c; d; e; f] X
                  (row_of <$> qs) post)
        by (by rewrite <-?list_fmap_compose, ?length_fmap)
  end.
  rewrite for_each_cons, bind_run.
  erewrite (as_list_as_str_run _ _ _ _ (totals_of qs))
    by (rewrite !lookup_cons_S, lookup_app_at; reflexivity).
  run_to_stuck.
  rewrite (for_each_getitem qs 1 (λ q, VInt (revenue q))) by done.
  run_to_stuck.
  rewrite (for_each_getitem qs 0 (λ q, VStr (quarter q))) by done.
  run_to_stuck.
  rewrite for_each_as_int_fmap. run_to_stuck.
  rewrite for_each_as_str_fmap. run_to_stuck.
  cbn [result]. apply (f_equal Some). show_texts.
  unfold story_for, flowable_for.
  change (_ :: (row_of <$> qs) ++ [totals_of qs]) with (cells_for qs).
  generalize (cells_for qs), (revenue <$> qs), (quarter <$> qs).
  clear dependent qs. intros cells revenues names. vm_compute. reflexivity.
Qed.

(** * The narrative and the data *)








(** * Further properties of the script *)

(** ** The format specifications *)

(** The printer writes at most [k] digits exactly for the numbers below
    [10^k]. *)
Lemma length_pretty_N_go (x : N) (k : nat) :
  (length (chars (pretty_N_go x "")) ≤ k)%nat ↔ (x < 10 ^ N.of_nat k)%N.
Proof.
  revert k. induction (N.lt_wf_0 x) as [x _ IH]. intros k.
  destruct (decide (x = 0%N)) as [->|Hx].
  - rewrite pretty_N_go_0. cbn [chars list_ascii_of_string length].
    split; [intros _|lia]. apply N.neq_0_lt_0, N.pow_nonzero. lia.
  - rewrite chars_pretty_N_go_snoc, length_app by lia. cbn [length].
    destruct k as [|k].
    { split; [lia|]. rewrite N.pow_0_r. lia. }
    specialize (IH (x `div` 10)%N ltac:(apply N.div_lt; lia) k).
    rewrite Nat2N.inj_succ, N.pow_succ_r'.
    pose proof (N.div_mod x 10 ltac:(lia)) as Hdm.
    pose proof (N.mod_lt x 10 ltac:(lia)) as Hm.
    set (p := (10 ^ N.of_nat k)%N) in *. clearbody p.
    split; intros H.
    + assert (x `div` 10 < p)%N by (apply IH; lia). lia.
    + assert (length (chars (pretty_N_go (x `div` 10) "")) ≤ k)%nat; [|lia].
      apply IH. apply N.Div0.div_lt_upper_bound. exact H.
Qed.

Lemma length_digits (n : Z) (k : nat) :
  0 ≤ n → (1 ≤ k)%nat → (length (digits n) ≤ k)%nat ↔ n < 10 ^ Z.of_nat k.
Proof.
  intros Hn Hk. unfold digits, pretty, pretty_N. case_decide as H0.
  - replace n with 0 by lia. cbn [chars list_ascii_of_string length].
    split; [intros _|lia]. apply Z.pow_pos_nonneg; lia.
  - rewrite length_pretty_N_go.
    replace 10 with (Z.of_N 10) by done. rewrite <-(nat_N_Z k), <-N2Z.inj_pow.
    lia.
Qed.

Lemma fits_str_bound (n : Z) :
  fits_str n = true ↔ Z.abs n < 10 ^ Z.of_nat int_max_str_digits.
Proof.
  unfold fits_str. rewrite Nat.leb_le. apply length_digits; [lia|].
  apply Nat.leb_le. vm_compute. reflexivity.
Qed.

(** X1: [f"{n:,}"] of an [int] below [10^4300] in magnitude (at most 4300
    decimal digits) returns a thousands-separated integer, groups of
    three digits with no leading zero, that reads back as [n], and leaves
    the state alone; of an [int] with more digits it raises
    [ValueError]. *)
Theorem thousands_round_trip (n : Z) (σ : State) :
  (fits_str n = true ↔ Z.abs n < 10 ^ Z.of_nat int_max_str_digits)
  ∧ if fits_str n then
      ∃ cell, run (format_comma (VInt n)) σ = Return cell σ
              ∧ is_thousands_separated cell = true
              ∧ thousands_value cell = Some n
    else run (format_comma (VInt n)) σ = Raise ValueError σ.
Proof.
  split; [apply fits_str_bound|].
  destruct (fits_str n) eqn:Hn.
  - exists (format_thousands n). unfold run.
    rewrite (format_comma_fits _ _ Hn). split; [done|].
    apply format_thousands_spec.
  - unfold run. by rewrite (format_comma_beyond _ _ Hn).
Qed.

(** X2: [f"{x:.2f}"] of any finite nonzero [float] [x = ± m * 2^e] is a
    two-decimal value; read back in hundredths it is [x * 100] rounded to
    the nearest integer (exactly [x * 100] when that is an integer), and a
    tie goes to the even neighbour. *)
Theorem two_decimal_rounding (s : bool) (m : positive) (e : Z) :
  let cell := format_2f (S754_finite s m e) in
  is_two_decimal cell = true
  ∧ hundredths_value cell = Some (apply_sign s (hundredths m e))
  ∧ (if 0 <=? e then hundredths m e = 100 * Z.pos m * 2 ^ e
     else 2 * Z.abs (hundredths m e * 2 ^ (- e) - 100 * Z.pos m) ≤ 2 ^ (- e))
  ∧ (e < 0 → 2 * ((Z.pos m * 100) `mod` 2 ^ (- e)) = 2 ^ (- e) →
     Z.even (hundredths m e) = true).
Proof.
  intros cell. destruct (format_2f_spec s m e) as [Hshape Hvalue].
  split; [done|]. split; [done|]. split; [apply hundredths_nearest|].
  intros He Htie. unfold hundredths.
  destruct (Z.leb_spec 0 e); [lia|].
  apply round_half_even_tie; [lia| |done]. apply Z.pow_pos_nonneg; lia.
Qed.

(** ** The story of any data set *)

Lemma column_sum_cons value_of j (row : list string) rows :
  column_sum value_of j (row :: rows)
  = c ← row !! j; v ← value_of c; s ← column_sum value_of j rows; Some (v + s).
Proof. done. Qed.

Lemma column_sum_revenue (qs : list Quarter) :
  column_sum thousands_value 1 (row_of <$> qs) = Some (total (revenue <$> qs)).
Proof.
  induction qs as [|q qs IH]; [done|].
  rewrite !fmap_cons, column_sum_cons, IH. unfold row_of at 1.
  cbn [lookup list_lookup mbind option_bind].
  by rewrite (proj2 (format_thousands_spec _)).
Qed.

Lemma column_sum_net_income (qs : list Quarter) :
  column_sum thousands_value 2 (row_of <$> qs)
  = Some (total (net_income <$> qs)).
Proof.
  induction qs as [|q qs IH]; [done|].
  rewrite !fmap_cons, column_sum_cons, IH. unfold row_of at 1.
  cbn [lookup list_lookup mbind option_bind].
  by rewrite (proj2 (format_thousands_spec _)).
Qed.

Lemma table_cells_story_for (qs : list Quarter) :
  table_cells (story_for qs) = Some (cells_for qs).
Proof.
  unfold story_for, flowable_for. generalize (cells_for qs).
  generalize (revenue <$> qs), (quarter <$> qs). clear qs.
  intros revenues names cells. vm_compute. reflexivity.
Qed.

(** Closing a statement about [story_for qs] by evaluation: the cells,
    the series and the names stand for themselves. *)
Ltac story_for_compute qs :=
  unfold story_for, flowable_for;
  generalize (cells_for qs), (revenue <$> qs), (quarter <$> qs);
  clear dependent qs; intros ???; vm_compute; reflexivity.

(** X3: for every data set of (label, revenue, net income, EPS) records
    whose revenues, net incomes and column sums are within the digit
    limit of [f"{n:,}"], the assembly returns the story of the script as
    shipped with the cells of the table and the series and category names
    of the chart computed from the data set; no other fragment depends
    on the data.  The EPS total is the float sum added from left to
    right; where that reads the same at two decimals as the compensated
    sum, the cell is the same under either.  The shipped data set is the
    instance [quarters]. *)
Theorem story_of_any_data_set (qs : list Quarter)
    (files : gmap path node) (out : list output_line) :
  within_str_limit qs = true →
  eps_total_settled qs = true →
  story (MkState [tuple_of <$> qs] files out) = Some (story_for qs)
  ∧ (fs ← story (MkState [tuple_of <$> qs] files out);
     cells ← table_cells fs; totals ← list.last cells; totals !! 3%nat)
    = Some (format_total (compensated_total (eps <$> qs)))
  ∧ QUARTERLY_DATA_rows = tuple_of <$> quarters
  ∧ story_for quarters = shipped_story.
Proof.
  intros Hfits Heps. rewrite build_pdf_elements_run by done.
  split; [done|]. split.
  { cbn [mbind option_bind]. rewrite table_cells_story_for.
    unfold cells_for. cbn [mbind option_bind].
    rewrite last_cons, last_snoc. unfold totals_of.
    cbn [mbind option_bind lookup list_lookup]. f_equal.
    apply String.eqb_eq. exact Heps. }
  split; [reflexivity|]. vm_compute. reflexivity.
Qed.

(** X4: for every data set within the digit limit the table has the
    header, one row per record in the order of the data set, and the
    totals row, so two rows more than there are records; the revenue and
    net income cells of the totals row denote the sums of the cells above
    them, which are the sums of the records' values. *)
Theorem table_of_any_data_set (qs : list Quarter)
    (files : gmap path node) (out : list output_line) :
  within_str_limit qs = true →
  ∃ eps_total : string,
    let totals := ["FY 2024 Total"%string;
                   format_thousands (total (revenue <$> qs));
                   format_thousands (total (net_income <$> qs)); eps_total] in
    (story (MkState [tuple_of <$> qs] files out) ≫= table_cells)
      = Some (table_header :: (row_of <$> qs) ++ [totals])
    ∧ length (table_header :: (row_of <$> qs) ++ [totals])
      = (length qs + 2)%nat
    ∧ cell_value thousands_value 1 totals
      = column_sum thousands_value 1 (row_of <$> qs)
    ∧ cell_value thousands_value 2 totals
      = column_sum thousands_value 2 (row_of <$> qs)
    ∧ column_sum thousands_value 1 (row_of <$> qs)
      = Some (total (revenue <$> qs))
    ∧ column_sum thousands_value 2 (row_of <$> qs)
      = Some (total (net_income <$> qs)).
Proof.
  intros Hfits. exists (format_total (float_total (eps <$> qs))). intros totals.
  rewrite build_pdf_elements_run, column_sum_revenue, column_sum_net_income
    by done.
  split; [apply table_cells_story_for|].
  split. { cbn [length]. rewrite length_app, length_fmap. simpl. lia. }
  unfold cell_value, totals. cbn [lookup list_lookup mbind option_bind].
  by rewrite !(proj2 (format_thousands_spec _)).
Qed.

(** X5: the EPS cell of the totals row is the float sum shown at two
    decimals, not the sum of the cells above it: for two records with
    EPS 0.005 each cell shows 0.01 and so does the total. *)
Theorem eps_total_rounds_after_summing
    (files : gmap path node) (out : list output_line) :
  let qs := [MkQuarter "H1" 1 1 (literal 5 3);
             MkQuarter "H2" 1 1 (literal 5 3)] in
  let data := [["H1"; "1"; "1"; "0.01"]; ["H2"; "1"; "1"; "0.01"]] in
  let totals := ["FY 2024 Total"; "2"; "2"; "0.01"] in
  (story (MkState [tuple_of <$> qs] files out) ≫= table_cells)
    = Some (table_header :: data ++ [totals])
  ∧ column_sum hundredths_value 3 data = Some 2
  ∧ cell_value hundredths_value 3 totals = Some 1.
Proof.
  intros qs data totals.
  rewrite build_pdf_elements_run by (vm_compute; reflexivity).
  repeat split; vm_compute; reflexivity.
Qed.

(** X6: for every data set within the digit limit (the table is built
    before the chart) the chart has one series, the revenues of the
    records in the order of the data set, so one bar per record, named by
    the quarter labels and labelled with the revenue in decimal; the value
    axis stays at 0 to 3500 in steps of 500 whatever the revenues are. *)
Theorem chart_of_any_data_set (qs : list Quarter)
    (files : gmap path node) (out : list output_line) :
  within_str_limit qs = true →
  ∃ chart,
    (story (MkState [tuple_of <$> qs] files out)
       ≫= λ fs, head (fs ≫= charts_of)) = Some chart
    ∧ chart_data chart = [revenue <$> qs]
    ∧ length (concat (chart_data chart)) = length qs
    ∧ categoryNames chart = quarter <$> qs
    ∧ bar_labels chart = [(λ q, Some (str_int (revenue q))) <$> qs]
    ∧ valueMin chart = 0 ∧ valueMax chart = 3500 ∧ valueStep chart = 500.
Proof.
  intros Hfits.
  pose (shipped_chart :=
          default (with_series
                     (MkChart 0 0 0 0 [] [] "" 0 0 0 0 "" 0 white white
                        (of_int 0) 0 "" "" 0) [] [])
                  (head (shipped_story ≫= charts_of))).
  exists (with_series shipped_chart [revenue <$> qs] (quarter <$> qs)).
  rewrite build_pdf_elements_run by done. split.
  { subst shipped_chart. unfold story_for, flowable_for.
    generalize (cells_for qs), (revenue <$> qs), (quarter <$> qs).
    clear dependent qs. intros ???. vm_compute. reflexivity. }
  split; [done|]. split.
  { cbn [chart_data with_series concat]. by rewrite app_nil_r, length_fmap. }
  split; [done|]. split.
  { unfold bar_labels. cbn [chart_data with_series fmap list_fmap].
    replace (barLabelFormat shipped_chart) with "%d"%string
      by (vm_compute; reflexivity).
    f_equal. by rewrite <-list_fmap_compose. }
  repeat split; vm_compute; reflexivity.
Qed.

(** X7: the layout does not depend on the data: for every data set
    within the digit limit the story has the same sequence of fragment
    kinds as the shipped story, with exactly one page break, as its sixth
    fragment. *)
Theorem layout_of_any_data_set (qs : list Quarter)
    (files : gmap path node) (out : list output_line) :
  within_str_limit qs = true →
  let σ := MkState [tuple_of <$> qs] files out in
  fmap fragment_of <$> story σ = Some (fragment_of <$> shipped_story)
  ∧ (length ∘ filter (λ f, Is_true (is_page_break f))) <$> story σ
    = Some 1%nat
  ∧ (story σ ≫= λ fs, fs !! 5%nat) = Some PageBreak.
Proof.
  intros Hfits σ. subst σ. rewrite build_pdf_elements_run by done.
  repeat split; story_for_compute qs.
Qed.

(** X8: an empty data set raises nothing: the table has the header and a
    totals row of 0, 0 and 0.00 ([sum] of nothing is the [int] 0), and
    the chart has an empty series and no category names. *)
Theorem story_of_the_empty_data_set
    (files : gmap path node) (out : list output_line) :
  let σ := MkState [[]] files out in
  (story σ ≫= table_cells)
    = Some [table_header; ["FY 2024 Total"; "0"; "0"; "0.00"]]
  ∧ (story σ ≫= λ fs, chart_data <$> head (fs ≫= charts_of)) = Some [[]]
  ∧ (story σ ≫= λ fs, categoryNames <$> head (fs ≫= charts_of)) = Some [].
Proof.
  intros σ. subst σ.
  change (MkState [[]] files out) with (MkState [tuple_of <$> []] files out).
  rewrite build_pdf_elements_run by (vm_compute; reflexivity).
  repeat split; vm_compute; reflexivity.
Qed.

(** ** What the routines leave alone *)

Lemma safe_prefix {A} (m : M A) (Q : nat → A → Prop) (σ : State) :
  (∀ n, safe n m (Q n)) →
  take (length (heap σ)) (heap (final_state (run m σ))) = heap σ.
Proof.
  intros Hm. destruct (Hm (length (heap σ)) σ) as [[_ Htake] _]; [done|].
  unfold run. by rewrite Htake, take_ge.
Qed.

(** X9: in any state, with any style sheet, every routine leaves all the
    list objects that exist when it starts as they are, whether it returns
    or raises: it only writes to lists it has created itself. *)
Theorem routines_write_only_their_own_lists (styles : StyleSheet)
    (dir : path) (σ : State) :
  let kept (σ' : State) := take (length (heap σ)) (heap σ') = heap σ in
  kept (final_state (run (cover_page styles) σ))
  ∧ kept (final_state (run (narrative_section styles) σ))
  ∧ kept (final_state (run (financial_table styles) σ))
  ∧ kept (final_state (run revenue_chart σ))
  ∧ kept (final_state (run build_pdf_elements σ))
  ∧ kept (final_state (run (build_pdf dir) σ)).
Proof.
  intros kept. subst kept. cbv beta. repeat split.
  - apply (safe_prefix _ fresh). intros n. apply safe_cover_page.
  - apply (safe_prefix _ fresh). intros n. apply safe_narrative_section.
  - apply (safe_prefix _ fresh). intros n. apply safe_financial_table.
  - apply (safe_prefix _ (λ _, any)). intros n. apply safe_revenue_chart.
  - apply (safe_prefix _ fresh). intros n. apply safe_build_pdf_elements.
  - apply (safe_prefix _ (λ _, any)). intros n. apply safe_build_pdf.
Qed.

Lemma heap_only_world {A} (m : M A) (σ : State) :
  heap_only m →
  fs (final_state (run m σ)) = fs σ ∧ stdout (final_state (run m σ)) = stdout σ.
Proof.
  intros Hm. destruct σ as [h f o]. unfold run. rewrite (Hm h f o).
  by destruct (m (MkState h ∅ [])).
Qed.

(** X10: the content-building routines and the assembly of the story do
    no input or output: in any state, with any style sheet, whether they
    return or raise, the file system and the standard output are as they
    were.  Only [doc.build] and the two [print]s of [build_pdf] touch
    them. *)
Theorem content_routines_do_no_io (styles : StyleSheet) (σ : State) :
  let untouched (σ' : State) := fs σ' = fs σ ∧ stdout σ' = stdout σ in
  untouched (final_state (run build_styles σ))
  ∧ untouched (final_state (run (cover_page styles) σ))
  ∧ untouched (final_state (run (narrative_section styles) σ))
  ∧ untouched (final_state (run (financial_table styles) σ))
  ∧ untouched (final_state (run revenue_chart σ))
  ∧ untouched (final_state (run build_pdf_elements σ)).
Proof.
  intros untouched. subst untouched. cbv beta.
  repeat apply conj; apply heap_only_world;
    eauto using heap_only_build_styles, heap_only_cover_page,
      heap_only_narrative_section, heap_only_financial_table,
      heap_only_revenue_chart, heap_only_build_pdf_elements.
Qed.

(** ** The file system across a run *)

Global Instance entries_kept_preorder p : PreOrder (entries_kept p).
Proof.
  split; [intros f q n _ Hf; exact Hf|].
  intros f1 f2 f3 H12 H23 q n Hq Hf. eauto.
Qed.

Global Instance tree_kept_preorder : PreOrder tree_kept.
Proof.
  split; [intros f Hf; exact Hf|]. intros f1 f2 f3 H12 H23 H. eauto.
Qed.

Section FsSteps.
Context (R : relation (gmap path node)) `{!PreOrder R}.

Lemma fs_steps_ret {A} (a : A) : fs_steps R (mret a).
Proof. by intros σ. Qed.

Lemma fs_steps_raise {A} (e : exn) : fs_steps R (raise e : M A).
Proof. by intros σ. Qed.

Lemma fs_steps_bind {A B} (m : M A) (f : A → M B) :
  fs_steps R m → (∀ a, fs_steps R (f a)) → fs_steps R (m ≫= f).
Proof.
  intros Hm Hf σ. unfold mbind, M_bind. specialize (Hm σ).
  destruct (m σ) as [a σ1|e σ1]; simpl in *; [|done].
  etrans; [done|apply Hf].
Qed.

Lemma fs_steps_try_except {A} (m : M A) handler :
  fs_steps R m → (∀ e, fs_steps R (handler e)) →
  fs_steps R (try_except m handler).
Proof.
  intros Hm Hh σ. unfold try_except. specialize (Hm σ).
  destruct (m σ) as [a σ1|e σ1]; simpl in *; [done|].
  etrans; [done|apply Hh].
Qed.

Lemma fs_steps_heap_only {A} (m : M A) : heap_only m → fs_steps R m.
Proof.
  intros Hm [h f o]. simpl. rewrite (Hm h f o).
  by destruct (m (MkState h ∅ [])).
Qed.

Lemma fs_steps_is_dir p : fs_steps R (is_dir p).
Proof. intros σ. unfold is_dir. by repeat case_match. Qed.

Lemma fs_steps_stat p : fs_steps R (stat p).
Proof. intros σ. unfold stat. by repeat case_match. Qed.

Lemma fs_steps_print line : fs_steps R (print line).
Proof. by intros σ. Qed.

Lemma fs_steps_exist_ok_handler p e exist_ok :
  fs_steps R (d ← is_dir p;
              if negb exist_ok || negb d then raise e else mret ()).
Proof.
  apply fs_steps_bind; [apply fs_steps_is_dir|].
  intros d. destruct (negb exist_ok || negb d);
    [apply fs_steps_raise|apply fs_steps_ret].
Qed.

(** The two operations that change the file system carry the rest. *)
Context (Hmkdir : ∀ p, fs_steps R (os_mkdir p)).

Lemma fs_steps_mkdir_single p exist_ok : fs_steps R (mkdir_single p exist_ok).
Proof.
  apply fs_steps_try_except; [done|]. intros e.
  destruct e; try apply fs_steps_exist_ok_handler. apply fs_steps_raise.
Qed.

Lemma fs_steps_mkdir_parents p exist_ok : fs_steps R (mkdir_parents p exist_ok).
Proof.
  revert exist_ok. induction p as [|name parent IH]; intros exist_ok;
    rewrite mkdir_parents_unfold;
    (apply fs_steps_try_except; [done|]); intros e;
    destruct e; try apply fs_steps_exist_ok_handler;
    try apply fs_steps_raise.
  apply fs_steps_bind; [apply IH|]. intros _. apply fs_steps_mkdir_single.
Qed.

Lemma fs_steps_main dir :
  (∀ story, fs_steps R (write_file (OUTPUT_PDF dir)
                          (Rendered (doc_template dir) story))) →
  fs_steps R (main dir).
Proof.
  intros Hwrite. unfold main, module_level, build_pdf, doc_build. cbv zeta.
  apply fs_steps_bind.
  { apply fs_steps_bind; [apply fs_steps_mkdir_parents|]. intros _.
    apply fs_steps_heap_only. apply heap_only_bind; [done|]. by intros. }
  intros _. apply fs_steps_bind.
  { apply fs_steps_heap_only, heap_only_build_pdf_elements. }
  intros elements. apply fs_steps_bind.
  { apply fs_steps_bind; [apply fs_steps_heap_only, heap_only_read_story|].
    intros story. apply Hwrite. }
  intros _. apply fs_steps_bind; [apply fs_steps_print|]. intros _.
  apply fs_steps_bind; [apply fs_steps_stat|]. intros size.
  apply fs_steps_print.
Qed.
End FsSteps.



Lemma lookup_node_insert_ne (f : gmap path node) p q n :
  p ≠ q → p ≠ [] → lookup_node (<[p := n]> f) q = lookup_node f q.
Proof.
  intros Hpq Hp. destruct q; [done|]. simpl. by rewrite lookup_insert_ne.
Qed.

(** A new entry in a directory, or a file in place of a file, keeps the
    tree. *)
Lemma tree_shaped_insert (f : gmap path node) name parent n :
  tree_shaped f →
  lookup_node f parent = Some Dir →
  (f !! (name :: parent) = None ∨ ∃ c, f !! (name :: parent) = Some (File c)) →
  tree_shaped (<[name :: parent := n]> f).
Proof.
  intros Htree Hparent Hold. unfold tree_shaped.
  assert (∀ q, lookup_node f q = Some Dir →
               lookup_node (<[name :: parent := n]> f) q = Some Dir) as Hdir.
  { intros q Hq. rewrite lookup_node_insert_ne; [done| |done].
    intros <-. simpl in Hq. destruct Hold as [Hold|[c Hold]]; congruence. }
  apply map_Forall_insert_2.
  - simpl. by rewrite Hdir.
  - intros q x Hq. specialize (Htree q x Hq). destruct q as [|a q]; [done|].
    simpl in *. destruct (lookup_node f q) as [[]|] eqn:Hl; try done.
    by rewrite Hdir.
Qed.

Lemma os_mkdir_tree_kept p : fs_steps tree_kept (os_mkdir p).
Proof.
  intros σ Htree. unfold os_mkdir. repeat case_match; simpl; try done.
  subst. apply tree_shaped_insert; auto.
Qed.

Lemma write_file_tree_kept p c : fs_steps tree_kept (write_file p c).
Proof.
  intros σ Htree. unfold write_file. repeat case_match; simpl; try done;
    subst; apply tree_shaped_insert; eauto.
Qed.


(** X12: a run keeps the file system a tree: when every entry lies in a
    directory before the run, so does every entry after it, however the
    run ends. *)
Theorem tree_shape_kept (dir : path) (files : gmap path node) :
  tree_shaped files →
  tree_shaped (fs (final_state (run (main dir) (start files)))).
Proof.
  apply (fs_steps_main tree_kept os_mkdir_tree_kept dir
           (λ story, write_file_tree_kept _ _) (start files)).
Qed.

(** ** How a run fails *)

Lemma mkdir_parents_file_in_place name parent σ c :
  lookup_node (fs σ) parent = Some Dir →
  fs σ !! (name :: parent) = Some (File c) →
  mkdir_parents (name :: parent) true σ
  = Raise (FileExistsError (name :: parent)) σ.
Proof.
  intros Hparent Hfile. rewrite mkdir_parents_unfold.
  unfold try_except, os_mkdir. rewrite Hparent, Hfile.
  unfold mbind, M_bind, is_dir, lookup_node. by rewrite Hfile.
Qed.

(** X13: a regular file at the path of the output directory stops the
    run at the module level: [mkdir(parents=True, exist_ok=True)] raises
    [FileExistsError], [QUARTERLY_DATA] is never created, nothing is
    written and nothing is printed. *)
Theorem file_in_place_of_the_directory (dir : path)
    (files : gmap path node) (c : file_content) :
  lookup_node files dir = Some Dir →
  files !! OUTPUT_DIR dir = Some (File c) →
  run (main dir) (start files)
  = Raise (FileExistsError (OUTPUT_DIR dir)) (start files).
Proof.
  intros Hdir Hout.
  unfold run, main, module_level, mbind, M_bind, OUTPUT_DIR.
  by rewrite (mkdir_parents_file_in_place _ _ _ c).
Qed.

(** X14: a directory at the path of the document stops the run at
    [doc.build]: the story has been assembled and the output directory is
    there, the write raises [IsADirectoryError], and nothing is printed. *)
Theorem directory_in_place_of_the_document (dir : path)
    (files : gmap path node) :
  lookup_node files dir = Some Dir →
  files !! OUTPUT_DIR dir = None ∨ files !! OUTPUT_DIR dir = Some Dir →
  files !! OUTPUT_PDF dir = Some Dir →
  run (main dir) (start files)
  = Raise (IsADirectoryError (OUTPUT_PDF dir))
      (MkState shipped_heap (<[OUTPUT_DIR dir := Dir]> files) []).
Proof.
  intros Hdir Hout Hpdf. unfold run, main, mbind, M_bind.
  pose proof (module_level_makes_directory dir files Hdir Hout) as Hmod.
  unfold run in Hmod. rewrite Hmod.
  pose proof (build_pdf_shipped dir (<[OUTPUT_DIR dir := Dir]> files) [])
    as Hbuild.
  unfold run, shipped, imported in *. rewrite Hbuild.
  unfold write_file, OUTPUT_PDF at 1 2, lookup_node.
  fold (OUTPUT_PDF dir). cbn [fs]. fold (OUTPUT_DIR dir).
  rewrite lookup_insert_eq, lookup_insert_ne, Hpdf; [done|].
  intros H. by apply (OUTPUT_PDF_ne_DIR dir).
Qed.

(** What a run that returns leaves behind. *)
Lemma main_returns dir files σ :
  run (main dir) (start files) = Return () σ →
  ∃ made,
    run (module_level dir) (start files) = Return () (shipped made)
    ∧ lookup_node made (OUTPUT_DIR dir) = Some Dir
    ∧ σ = MkState shipped_heap
            (<[OUTPUT_PDF dir := File (Rendered (doc_template dir) shipped_story)]>
               made)
            (report dir).
Proof.
  intros Hrun. unfold run, main, mbind, M_bind in Hrun.
  destruct (module_level dir (start files)) as [[] σ0|] eqn:Hmod; [|done].
  pose proof (module_level_returns _ _ _ Hmod) as Hσ0.
  exists (fs σ0). rewrite <-Hσ0. split; [done|].
  rewrite Hσ0 in Hrun.
  pose proof (build_pdf_shipped dir (fs σ0) []) as Hbuild.
  unfold run, shipped, imported in *. rewrite Hbuild in Hrun.
  unfold write_file, OUTPUT_PDF at 1, lookup_node in Hrun.
  fold (OUTPUT_PDF dir) in Hrun. cbn [fs] in Hrun.
  unfold lookup_node, OUTPUT_DIR at 1. fold (OUTPUT_DIR dir).
  destruct (fs σ0 !! OUTPUT_DIR dir) as [[]|]; try discriminate Hrun.
  split; [done|].
  destruct (fs σ0 !! OUTPUT_PDF dir) as [[]|]; try discriminate Hrun;
    by injection Hrun as <-.
Qed.

(** What a run that raises leaves on the output. *)
Lemma main_raises dir files e σ :
  run (main dir) (start files) = Raise e σ → stdout σ = [].
Proof.
  intros Hrun. unfold run, main, mbind, M_bind in Hrun.
  destruct (module_level dir (start files)) as [[] σ0|e0 σ0] eqn:Hmod.
  - pose proof (module_level_returns _ _ _ Hmod) as Hσ0. rewrite Hσ0 in Hrun.
    pose proof (build_pdf_shipped dir (fs σ0) []) as Hbuild.
    unfold run, shipped, imported in *. rewrite Hbuild in Hrun.
    unfold write_file, OUTPUT_PDF at 1, lookup_node in Hrun.
    fold (OUTPUT_PDF dir) in Hrun. cbn [fs] in Hrun.
    destruct (fs σ0 !! OUTPUT_DIR dir) as [[]|];
      [destruct (fs σ0 !! OUTPUT_PDF dir) as [[]|]|..];
      try discriminate Hrun; by injection Hrun as <- <-.
  - injection Hrun as <- <-. unfold module_level, mbind, M_bind in Hmod.
    destruct (only_files_mkdir_parents (OUTPUT_DIR dir) true (start files))
      as [_ Hout].
    destruct (mkdir_parents _ _ _) as [|e1 σ1]; [discriminate Hmod|].
    injection Hmod as <- <-. exact Hout.
Qed.

(** X15: the script reports success exactly when the document has been
    written: a run that returns has printed its two lines and left the
    rendered story in the document file inside the output directory; a
    run that raises has printed nothing. *)
Theorem prints_only_after_writing (dir : path) (files : gmap path node) :
  match run (main dir) (start files) with
  | Return _ σ =>
      stdout σ = report dir
      ∧ fs σ !! OUTPUT_DIR dir = Some Dir
      ∧ fs σ !! OUTPUT_PDF dir
        = Some (File (Rendered (doc_template dir) shipped_story))
  | Raise _ σ => stdout σ = []
  end.
Proof.
  destruct (run (main dir) (start files)) as [[] σ|e σ] eqn:Hrun.
  - destruct (main_returns _ _ _ Hrun) as (made & _ & Hdir & ->). cbn [fs stdout].
    split; [done|]. split; [|apply lookup_insert_eq].
    rewrite lookup_insert_ne; [done|]. apply OUTPUT_PDF_ne_DIR.
  - by eapply main_raises.
Qed.

(** ** A second run *)

Lemma exist_ok_handler_returns p e σ σ' :
  (d ← is_dir p; if negb true || negb d then raise e else mret ()) σ
  = Return () σ' →
  σ' = σ ∧ lookup_node (fs σ) p = Some Dir.
Proof.
  unfold mbind, M_bind, is_dir.
  destruct (lookup_node (fs σ) p) as [[]|]; simpl; intros H;
    try discriminate H. by injection H as <-.
Qed.

Lemma handler_returns p e exist_ok σ σ' :
  (d ← is_dir p; if negb exist_ok || negb d then raise e else mret ()) σ
  = Return () σ' →
  σ' = σ ∧ lookup_node (fs σ) p = Some Dir.
Proof.
  unfold mbind, M_bind, is_dir.
  destruct (lookup_node (fs σ) p) as [[]|], exist_ok; simpl; intros H;
    try discriminate H; by injection H as <-.
Qed.

Lemma os_mkdir_cases name parent σ :
  (∃ σ', os_mkdir (name :: parent) σ = Return () σ'
         ∧ lookup_node (fs σ') parent = Some Dir
         ∧ fs σ' !! (name :: parent) = Some Dir)
  ∨ (os_mkdir (name :: parent) σ = Raise (FileNotFoundError (name :: parent)) σ
     ∧ lookup_node (fs σ) parent = None)
  ∨ (∃ e, os_mkdir (name :: parent) σ = Raise e σ
          ∧ (∀ p, e ≠ FileNotFoundError p)
          ∧ lookup_node (fs σ) parent ≠ None).
Proof.
  unfold os_mkdir.
  destruct (lookup_node (fs σ) parent) as [[]|] eqn:Hparent.
  - destruct (fs σ !! (name :: parent)) eqn:Hp.
    + right. right. eexists. by repeat split.
    + left. eexists. split; [done|]. simpl. split; [|apply lookup_insert_eq].
      rewrite lookup_node_insert_ne; [done| |done].
      intros H. apply (f_equal length) in H. simpl in H. lia.
  - right. right. eexists. by repeat split.
  - right. left. by split.
Qed.

Lemma mkdir_single_returns name parent exist_ok σ σ' :
  mkdir_single (name :: parent) exist_ok σ = Return () σ' →
  lookup_node (fs σ') parent ≠ None ∧ fs σ' !! (name :: parent) = Some Dir.
Proof.
  unfold mkdir_single, try_except.
  destruct (os_mkdir_cases name parent σ)
    as [(σ1 & -> & Hdir & Hp)|[[-> _]|(e & -> & He & Hparent)]].
  - intros [= <-]. split; [congruence|done].
  - intros H. discriminate H.
  - destruct e; try (by destruct (He p));
      intros H; apply handler_returns in H as [-> H]; by split.
Qed.

(** When [mkdir(parents=True)] returns, the directory is there, and so
    is something at its parent. *)
Lemma mkdir_parents_returns name parent exist_ok σ σ' :
  mkdir_parents (name :: parent) exist_ok σ = Return () σ' →
  lookup_node (fs σ') parent ≠ None ∧ fs σ' !! (name :: parent) = Some Dir.
Proof.
  rewrite mkdir_parents_unfold. unfold try_except.
  destruct (os_mkdir_cases name parent σ)
    as [(σ1 & -> & Hdir & Hp)|[[-> _]|(e & -> & He & Hparent)]].
  - intros [= <-]. split; [congruence|done].
  - unfold mbind, M_bind. destruct (mkdir_parents parent true σ); [|done].
    apply mkdir_single_returns.
  - destruct e; try (by destruct (He p));
      intros H; apply handler_returns in H as [-> H]; by split.
Qed.

(** A directory that is there is left alone. *)
Lemma mkdir_parents_again name parent σ :
  fs σ !! (name :: parent) = Some Dir → lookup_node (fs σ) parent ≠ None →
  mkdir_parents (name :: parent) true σ = Return () σ.
Proof.
  intros Hp Hparent. rewrite mkdir_parents_unfold.
  unfold try_except, os_mkdir.
  destruct (lookup_node (fs σ) parent) as [[]|]; [| |done]; rewrite ?Hp;
    unfold mbind, M_bind, is_dir, lookup_node; by rewrite Hp.
Qed.

(** X16: a second run changes nothing: started in the file system a run
    that returned has left, the script returns again, overwrites the
    document with the same rendered story and ends in the same state. *)
Theorem second_run_changes_nothing (dir : path) (files : gmap path node)
    (σ : State) :
  run (main dir) (start files) = Return () σ →
  run (main dir) (start (fs σ)) = Return () σ.
Proof.
  intros Hrun. destruct (main_returns _ _ _ Hrun) as (made & Hmod & Hdir & ->).
  cbn [fs].
  set (doc := File (Rendered (doc_template dir) shipped_story)) in *.
  pose proof (OUTPUT_PDF_ne_DIR dir) as Hne.
  assert (lookup_node made dir ≠ None) as Hparent.
  { unfold run, module_level, mbind, M_bind in Hmod.
    destruct (mkdir_parents (OUTPUT_DIR dir) true (start files))
      as [[] σ0|] eqn:Hmk; [|discriminate Hmod].
    apply mkdir_parents_returns in Hmk as [Hparent _].
    injection Hmod as _ Hfs _. by rewrite <-Hfs. }
  assert (run (module_level dir) (start (<[OUTPUT_PDF dir := doc]> made))
          = Return () (shipped (<[OUTPUT_PDF dir := doc]> made))) as Hmod2.
  { unfold run, module_level, mbind, M_bind, OUTPUT_DIR.
    rewrite mkdir_parents_again; [done|..]; cbn [fs start].
    - fold (OUTPUT_DIR dir). by rewrite lookup_insert_ne.
    - rewrite lookup_node_insert_ne; [done| |done].
      intros H. apply (f_equal length) in H. simpl in H. lia. }
  unfold run, main, mbind, M_bind in *. rewrite Hmod2.
  pose proof (build_pdf_shipped dir (<[OUTPUT_PDF dir := doc]> made) [])
    as Hbuild.
  unfold run, shipped, imported in *. rewrite Hbuild.
  unfold write_file, OUTPUT_PDF at 1 2, lookup_node.
  fold (OUTPUT_PDF dir). fold (OUTPUT_DIR dir). cbn [fs].
  unfold lookup_node, OUTPUT_DIR at 1 in Hdir. fold (OUTPUT_DIR dir) in Hdir.
  rewrite lookup_insert_ne, Hdir, lookup_insert_eq by done.
  unfold doc at 1. by rewrite insert_insert_eq.
Qed.

(** ** Ill-formed records and missing styles *)

Lemma table_row_wrong_arity items σ :
  length items ≠ 4%nat → table_row (VTuple items) σ = Raise ValueError σ.
Proof.
  intros Hlen. destruct items as [|a [|b [|c [|d [|e items]]]]]; try done.
Qed.

(** X17: a record of [QUARTERLY_DATA] that is a tuple of fewer or more
    than four items makes [financial_table] raise [ValueError] at the
    unpacking in the comprehension, before any row is built; the data set
    and the file system are as they were. *)
Theorem record_of_wrong_arity (styles : StyleSheet) (items rest : list value)
    (files : gmap path node) (out : list output_line) :
  is_Some (styles !! "SectionHead"%string) →
  length items ≠ 4%nat →
  ∃ σ',
    run (financial_table styles) (MkState [VTuple items :: rest] files out)
    = Raise ValueError σ'
    ∧ dataset σ' = Some (VTuple items :: rest)
    ∧ length (heap σ') = 3%nat
    ∧ fs σ' = files ∧ stdout σ' = out.
Proof.
  intros [s Hs] Hlen. eexists.
  unfold run, financial_table, style. rewrite Hs. run_to_stuck.
  rewrite table_row_wrong_arity by done. by repeat split.
Qed.

Lemma table_row_beyond_limit q rev ni eps σ :
  fits_str rev = false →
  table_row (VTuple [q; VInt rev; ni; eps]) σ = Raise ValueError σ.
Proof.
  intros Hrev. unfold table_row, mbind, M_bind, format_comma.
  cbn [unpack4 mret M_ret]. by rewrite Hrev.
Qed.

(** X19: a first record whose revenue has more than 4300 decimal digits
    makes [financial_table] raise [ValueError] at [f"{rev:,}"] in the
    comprehension, before any row is built; the data set and the file
    system are as they were. *)
Theorem revenue_beyond_digit_limit (styles : StyleSheet)
    (q ni eps : value) (rev : Z) (rest : list value)
    (files : gmap path node) (out : list output_line) :
  is_Some (styles !! "SectionHead"%string) →
  fits_str rev = false →
  ∃ σ',
    run (financial_table styles)
        (MkState [VTuple [q; VInt rev; ni; eps] :: rest] files out)
    = Raise ValueError σ'
    ∧ dataset σ' = Some (VTuple [q; VInt rev; ni; eps] :: rest)
    ∧ length (heap σ') = 3%nat
    ∧ fs σ' = files ∧ stdout σ' = out.
Proof.
  intros [s Hs] Hrev. eexists.
  unfold run, financial_table, style. rewrite Hs. run_to_stuck.
  rewrite table_row_beyond_limit by done. by repeat split.
Qed.

(** X18: [cover_page] asks the style sheet for ["CoverTitle"] and
    ["CoverSubtitle"] only: with both it returns its six flowables, in any
    state and whatever else the sheet holds; without one of them it
    raises [KeyError] with the missing name. *)
Theorem cover_page_needs_two_styles (styles : StyleSheet) (σ : State) :
  match styles !! "CoverTitle"%string, styles !! "CoverSubtitle"%string with
  | Some title, Some subtitle =>
      result (run (flowables_of (cover_page styles)) σ)
      = Some [ Spacer 1 (mul (of_int 2) inch);
               Paragraph "Acme Corp" title;
               Paragraph "Quarterly Earnings Report &mdash; Fiscal Year 2024"
                 subtitle;
               Spacer 1 (mul (literal 5 1) inch);
               Paragraph
                 "Prepared for Investors and Analysts<br/>Published: January 15, 2025"
                 subtitle;
               PageBreak ]
  | None, _ =>
      ∃ σ', run (cover_page styles) σ = Raise (KeyError "CoverTitle") σ'
  | Some _, None =>
      ∃ σ', run (cover_page styles) σ = Raise (KeyError "CoverSubtitle") σ'
  end.
Proof.
  destruct σ as [h files out].
  destruct (styles !! "CoverTitle"%string) as [title|] eqn:Ht;
    [destruct (styles !! "CoverSubtitle"%string) as [subtitle|] eqn:Hs|].
  - unfold run, flowables_of, cover_page, style. rewrite Ht, Hs.
    run_to_stuck. reflexivity.
  - eexists. unfold run, cover_page, style. rewrite Ht, Hs.
    run_to_stuck. reflexivity.
  - eexists. unfold run, cover_page, style. rewrite Ht.
    run_to_stuck. reflexivity.
Qed.

(** ** The further properties at work *)

(** 0.125 is half way between 0.12 and 0.13 and is shown as 0.12. *)
Lemma two_decimal_rounding_witness :
  format_2f (S754_finite false 1 (-3)) = "0.12"%string
  ∧ Z.even (hundredths 1 (-3)) = true.
Proof.
  split; [vm_compute; reflexivity|].
  destruct (two_decimal_rounding false 1 (-3)) as (_ & _ & _ & Htie).
  apply Htie; [lia|vm_compute; reflexivity].
Defined.


Lemma tree_shape_kept_witness :
  tree_shaped fresh_checkout
  ∧ tree_shaped (fs (final_state (run (main checkout_dir) (start fresh_checkout)))).
Proof.
  assert (tree_shaped fresh_checkout) as H.
  { apply (bool_decide_unpack _). vm_compute. exact I. }
  split; [exact H|]. apply (tree_shape_kept checkout_dir fresh_checkout H).
Defined.

Lemma file_in_place_of_the_directory_witness :
  run (main checkout_dir) (start file_at_data)
  = Raise (FileExistsError (OUTPUT_DIR checkout_dir)) (start file_at_data).
Proof.
  apply (file_in_place_of_the_directory checkout_dir file_at_data (Bytes "notes"));
    vm_compute; reflexivity.
Defined.

Lemma directory_in_place_of_the_document_witness :
  run (main checkout_dir) (start directory_at_document)
  = Raise (IsADirectoryError (OUTPUT_PDF checkout_dir))
      (MkState shipped_heap
         (<[OUTPUT_DIR checkout_dir := Dir]> directory_at_document) []).
Proof.
  apply (directory_in_place_of_the_document checkout_dir directory_at_document).
  - vm_compute; reflexivity.
  - right. vm_compute; reflexivity.
  - vm_compute; reflexivity.
Defined.

Lemma second_run_changes_nothing_witness :
  let σ := final_state (run (main checkout_dir) (start fresh_checkout)) in
  run (main checkout_dir) (start fresh_checkout) = Return () σ
  ∧ run (main checkout_dir) (start (fs σ)) = Return () σ.
Proof.
  intros σ.
  assert (run (main checkout_dir) (start fresh_checkout) = Return () σ) as H
    by (vm_compute; reflexivity).
  split; [exact H|].
  apply (second_run_changes_nothing checkout_dir fresh_checkout σ H).
Defined.

Lemma record_of_wrong_arity_witness :
  ∃ σ',
    run (financial_table script_styles)
      (MkState [[VTuple [VStr "Q1 2024"; VInt 2105; VInt 312]]] ∅ [])
    = Raise ValueError σ'.
Proof.
  destruct (record_of_wrong_arity script_styles
              [VStr "Q1 2024"; VInt 2105; VInt 312] [] ∅ [])
    as (σ' & Hrun & _).
  - vm_compute. eexists. reflexivity.
  - vm_compute. discriminate.
  - exists σ'. exact Hrun.
Defined.

Lemma story_of_any_data_set_witness :
  story (MkState [tuple_of <$> quarters] ∅ []) = Some (story_for quarters).
Proof.
  apply (story_of_any_data_set quarters ∅ []); vm_compute; reflexivity.
Defined.

Lemma table_of_any_data_set_witness :
  ∃ eps_total : string,
    (story (MkState [tuple_of <$> shifted_quarters] ∅ []) ≫= table_cells)
    = Some (table_header :: (row_of <$> shifted_quarters)
            ++ [["FY 2024 Total"%string; "10,552"%string; "1,678"%string;
                 eps_total]]).
Proof.
  destruct (table_of_any_data_set shifted_quarters ∅ [])
    as (eps_total & Hcells & _); [vm_compute; reflexivity|].
  exists eps_total. exact Hcells.
Defined.

Lemma chart_of_any_data_set_witness :
  ∃ chart,
    (story (MkState [tuple_of <$> restated_quarters] ∅ [])
       ≫= λ fs, head (fs ≫= charts_of)) = Some chart
    ∧ chart_data chart = [[2105; 2498; 2900; 3102]].
Proof.
  destruct (chart_of_any_data_set restated_quarters ∅ [])
    as (chart & Hchart & Hdata & _); [vm_compute; reflexivity|].
  exists chart. split; [exact Hchart|exact Hdata].
Defined.

Lemma layout_of_any_data_set_witness :
  (story (MkState [tuple_of <$> shifted_quarters] ∅ []) ≫= λ fs, fs !! 5%nat)
  = Some PageBreak.
Proof.
  apply (layout_of_any_data_set shifted_quarters ∅ []). vm_compute. reflexivity.
Defined.

Lemma thousands_round_trip_witness :
  fits_str 2105 = true
  ∧ ∃ cell, run (format_comma (VInt 2105)) (start ∅) = Return cell (start ∅)
            ∧ is_thousands_separated cell = true
            ∧ thousands_value cell = Some 2105.
Proof.
  destruct (thousands_round_trip 2105 (start ∅)) as [Hbound Hcell].
  assert (fits_str 2105 = true) as Hfits.
  { apply Hbound. vm_compute. reflexivity. }
  split; [exact Hfits|]. rewrite Hfits in Hcell. exact Hcell.
Defined.

Lemma revenue_beyond_digit_limit_witness :
  ∃ σ',
    run (financial_table script_styles) (MkState [[oversized_record]] ∅ [])
    = Raise ValueError σ'.
Proof.
  destruct (revenue_beyond_digit_limit script_styles
              (VStr "Q1 2024") (VInt 312) (VFloat (literal 156 2))
              (10 ^ 4300) [] ∅ [])
    as (σ' & Hrun & _).
  - vm_compute. eexists. reflexivity.
  - destruct (fits_str (10 ^ 4300)) eqn:Hfits; [|reflexivity].
    apply fits_str_bound in Hfits.
    rewrite Z.abs_eq in Hfits by (apply Z.pow_nonneg; lia).
    exfalso. exact (Z.lt_irrefl _ Hfits).
  - exists σ'. exact Hrun.
Defined.

